(** * server.js: credential bootstrap and request handlers

    A shallow embedding of [src/server.js].  The file holds two revisions of
    the server: the first (lines 1-100) reads the credential from the
    environment only; the second (lines 101-297) first asks a remote
    endpoint for it.  They are embedded as [Variant1] and [Variant2], over a
    common model of the JavaScript values both manipulate ([JS]). *)

From Stdlib Require Import List Bool NArith ZArith Lia String Ascii PrimFloat.
Import ListNotations.

Set Implicit Arguments.
#[local] Set Warnings "-register-all".
#[local] Set Warnings "-automation".
(* A decimal literal stands for the nearest binary64, as in JavaScript. *)
#[local] Set Warnings "-inexact-float".


(** ** JavaScript values *)

Module JS.

(** A string is its sequence of UTF-16 code units, so that [length] is the
    [.length] of the program and [trim] sees every white-space code point. *)
Definition jsstring := list N.

(** An ASCII literal of the source, as code units. *)
Definition str (s : string) : jsstring :=
  map N_of_ascii (list_ascii_of_string s).

Fixpoint str_eqb (a b : jsstring) : bool :=
  match a, b with
  | [], [] => true
  | x :: a', y :: b' => N.eqb x y && str_eqb a' b'
  | _, _ => false
  end.

(** Values.  An array carries its elements and the named (non-index) own
    properties an assignment may have added to it; an object carries its own
    enumerable properties in the order [Object.keys] lists them.  Functions
    and symbols never occur: every value here comes out of a JSON parser, the
    environment or a literal of the program. *)
Inductive value : Type :=
| VUndefined
| VNull
| VBool (b : bool)
| VNum (n : float)
| VStr (s : jsstring)
| VArr (elems : list value) (named : list (jsstring * value))
| VObj (props : list (jsstring * value)).

(** What the program can raise or be handed as a rejection: the two built-in
    errors its operations raise, the two [new Error(...)] of
    [loadKeyFromMockAPI], and a failure reported by something outside the
    program (the network, the file system, the model provider). *)
Inductive error : Type :=
| TypeError
| SyntaxError
| HttpError (status : Z)
| NoKeyInResponse
| External (message : jsstring).

(** The outcome of running a piece of the program: a value, a raised
    exception, the end of the process ([process.exit]), or a loop model that
    was given too few iterations. *)
Inductive result (A : Type) : Type :=
| Normal (a : A)
| Throw (e : error)
| Exit (code : Z)
| OutOfFuel.

Arguments Throw {A} e.
Arguments Exit {A} code.
Arguments OutOfFuel {A}.

Definition rbind {A B} (r : result A) (k : A -> result B) : result B :=
  match r with
  | Normal a => k a
  | Throw e => Throw e
  | Exit c => Exit c
  | OutOfFuel => OutOfFuel
  end.

(** What something outside the program answers: the settlement of a promise,
    or the return or exception of a call. *)
Inductive reply (A : Type) : Type :=
| Resolved (a : A)
| Rejected (e : error).

Arguments Rejected {A} e.

(** What the program takes from its runtime without the source saying how it
    is computed: the rendering of a number as a string, the reading of a
    string as a number, the JSON grammar, and what the call
    [app.listen(port, callback)] does: it returns, with the callback left
    for the server to run once it is bound, or it raises (a port out of
    range, for one).  What the server does after the call has returned is
    not the program's. *)
Record host : Type := {
  Number_toString : float -> jsstring;
  StringToNumber : jsstring -> float;
  JSON_parse_text : jsstring -> option value;
  app_listen : value -> reply unit
}.

Inductive jstype : Type :=
| TyUndefined | TyObject | TyBoolean | TyNumber | TyString.

(** [typeof v]; [null] and arrays are ["object"]. *)
Definition typeof (v : value) : jstype :=
  match v with
  | VUndefined => TyUndefined
  | VNull => TyObject
  | VBool _ => TyBoolean
  | VNum _ => TyNumber
  | VStr _ => TyString
  | VArr _ _ => TyObject
  | VObj _ => TyObject
  end.

(** ToBoolean: what [if (v)], [!v], [v && ...], [v || ...] and [v ? :] test. *)
Definition truthy (v : value) : bool :=
  match v with
  | VUndefined => false
  | VNull => false
  | VBool b => b
  | VNum n => negb (PrimFloat.is_zero n || PrimFloat.is_nan n)
  | VStr s => negb (Nat.eqb (List.length s) 0)
  | VArr _ _ => true
  | VObj _ => true
  end.

Definition isArray (v : value) : bool :=
  match v with VArr _ _ => true | _ => false end.

Fixpoint lookup (k : jsstring) (props : list (jsstring * value)) : option value :=
  match props with
  | [] => None
  | (k', v) :: rest => if str_eqb k k' then Some v else lookup k rest
  end.

Definition digit (d : nat) : N := N.of_nat (48 + d).

(** The decimal numeral of an array index, as [ToString] of the index. *)
Fixpoint key_of_index_aux (fuel n : nat) (acc : jsstring) : jsstring :=
  match fuel with
  | O => acc
  | S fuel' =>
      let acc' := digit (n mod 10) :: acc in
      if Nat.eqb (n / 10) 0 then acc' else key_of_index_aux fuel' (n / 10) acc'
  end.

Definition key_of_index (n : nat) : jsstring := key_of_index_aux (S n) n [].

(** The element an own index key [k] names, if any, counting from [i]. *)
Fixpoint find_index {A : Type} (k : jsstring) (i : nat) (elems : list A) : option A :=
  match elems with
  | [] => None
  | x :: rest => if str_eqb k (key_of_index i) then Some x else find_index k (S i) rest
  end.

Fixpoint index_entries (i : nat) (elems : list value) : list (jsstring * value) :=
  match elems with
  | [] => []
  | x :: rest => (key_of_index i, x) :: index_entries (S i) rest
  end.

(** The own enumerable string-keyed properties of [v], in [Object.keys]
    order: indices first for an array, then named properties; the code
    units of a string. *)
Definition own_entries (v : value) : list (jsstring * value) :=
  match v with
  | VObj props => props
  | VArr elems named => index_entries 0 elems ++ named
  | VStr s => index_entries 0 (map (fun c => VStr [c]) s)
  | _ => []
  end.

(** [Object.prototype.hasOwnProperty.call(v, k)] for a key [k] other than
    ["length"]: the program asks for the seven names of [possibleFields]
    only. *)
Definition hasOwnProperty (v : value) (k : jsstring) : bool :=
  match v with
  | VObj props => match lookup k props with Some _ => true | None => false end
  | VArr elems named =>
      match find_index k 0 elems with
      | Some _ => true
      | None => match lookup k named with Some _ => true | None => false end
      end
  | VStr s => match find_index k 0 s with Some _ => true | None => false end
  | _ => false
  end.

(** [v[k]] on a value that is neither [null] nor [undefined], for a key that
    no prototype defines and that is not ["length"]: the own property, or
    [undefined].  Every key the program reads is of that kind. *)
Definition get (v : value) (k : jsstring) : value :=
  match v with
  | VObj props => match lookup k props with Some x => x | None => VUndefined end
  | VArr elems named =>
      match find_index k 0 elems with
      | Some x => x
      | None => match lookup k named with Some x => x | None => VUndefined end
      end
  | VStr s => match find_index k 0 s with Some c => VStr [c] | None => VUndefined end
  | _ => VUndefined
  end.

(** [v.length] of an array or a string. *)
Definition length_of (v : value) : nat :=
  match v with
  | VArr elems _ => List.length elems
  | VStr s => List.length s
  | _ => 0
  end.

Definition nullish (v : value) : bool :=
  match v with VUndefined | VNull => true | _ => false end.

(** [v.k]: a [TypeError] on [null] and [undefined]. *)
Definition get_strict (v : value) (k : jsstring) : result value :=
  if nullish v then Throw TypeError else Normal (get v k).

(** [v?.k] *)
Definition get_optional (v : value) (k : jsstring) : value :=
  if nullish v then VUndefined else get v k.

Fixpoint update (k : jsstring) (x : value) (props : list (jsstring * value))
  : list (jsstring * value) :=
  match props with
  | [] => [(k, x)]
  | (k', v) :: rest =>
      if str_eqb k k' then (k', x) :: rest else (k', v) :: update k x rest
  end.

(** [v.k = x] in strict mode (the file is an ES module), for a key that is
    neither an index nor ["length"]: a primitive target raises. *)
Definition set (v : value) (k : jsstring) (x : value) : result value :=
  match v with
  | VObj props => Normal (VObj (update k x props))
  | VArr elems named => Normal (VArr elems (update k x named))
  | _ => Throw TypeError
  end.

(** White space and line terminators, as [String.prototype.trim] strips them. *)
Definition is_white_space (c : N) : bool :=
  (N.leb 9 c && N.leb c 13)
  || N.eqb c 32 || N.eqb c 160 || N.eqb c 5760
  || (N.leb 8192 c && N.leb c 8202)
  || N.eqb c 8232 || N.eqb c 8233 || N.eqb c 8239 || N.eqb c 8287
  || N.eqb c 12288 || N.eqb c 65279.

Fixpoint trim_start (s : jsstring) : jsstring :=
  match s with
  | c :: rest => if is_white_space c then trim_start rest else s
  | [] => []
  end.

Definition trim (s : jsstring) : jsstring :=
  rev (trim_start (rev (trim_start s))).

Section WithHost.

Variable h : host.

(** [String(v)], that is ToString.  An object that has an own property
    [toString] cannot be converted: the property is data, never a function,
    and the inherited [valueOf] gives back the object. *)
Fixpoint ToString (v : value) : result jsstring :=
  match v with
  | VUndefined => Normal (str "undefined")
  | VNull => Normal (str "null")
  | VBool true => Normal (str "true")
  | VBool false => Normal (str "false")
  | VNum n => Normal (Number_toString h n)
  | VStr s => Normal s
  | VArr elems named =>
      match lookup (str "toString") named with
      | Some _ => Throw TypeError
      | None =>
          match lookup (str "join") named with
          | Some _ => Normal (str "[object Array]")
          | None =>
              (fix join (l : list value) : result jsstring :=
                 match l with
                 | [] => Normal []
                 | x :: rest =>
                     rbind (if nullish x then Normal [] else ToString x) (fun s =>
                     match rest with
                     | [] => Normal s
                     | _ :: _ => rbind (join rest) (fun r => Normal (s ++ str "," ++ r))
                     end)
                 end) elems
          end
      end
  | VObj props =>
      match lookup (str "toString") props with
      | Some _ => Throw TypeError
      | None => Normal (str "[object Object]")
      end
  end.

(** [Number(v)], that is ToNumber. *)
Definition ToNumber (v : value) : result float :=
  match v with
  | VUndefined => Normal PrimFloat.nan
  | VNull => Normal PrimFloat.zero
  | VBool true => Normal PrimFloat.one
  | VBool false => Normal PrimFloat.zero
  | VNum n => Normal n
  | VStr s => Normal (StringToNumber h s)
  | VArr _ _ | VObj _ => rbind (ToString v) (fun s => Normal (StringToNumber h s))
  end.

(** [elems.join(sep)] *)
Fixpoint join (sep : jsstring) (elems : list value) : result jsstring :=
  match elems with
  | [] => Normal []
  | x :: rest =>
      rbind (if nullish x then Normal [] else ToString x) (fun s =>
      match rest with
      | [] => Normal s
      | _ :: _ => rbind (join sep rest) (fun r => Normal (s ++ sep ++ r))
      end)
  end.

(** [elems.map(String)] *)
Fixpoint map_String (elems : list value) : result (list jsstring) :=
  match elems with
  | [] => Normal []
  | x :: rest =>
      rbind (ToString x) (fun s =>
      rbind (map_String rest) (fun r => Normal (s :: r)))
  end.

(** [JSON.parse(v)]: the argument is converted to a string first. *)
Definition JSON_parse (v : value) : result value :=
  rbind (ToString v) (fun s =>
  match JSON_parse_text h s with
  | Some x => Normal x
  | None => Throw SyntaxError
  end).

End WithHost.

(** [new Set(strings).has(v)]: SameValueZero never equates a string with a
    value of another type. *)
Definition Set_has (members : list jsstring) (v : value) : bool :=
  match v with
  | VStr s => existsb (str_eqb s) members
  | _ => false
  end.

(** *** Effects

    A computation over a state [S]: it ends in a [result] and a new state.
    [try_catch] handles a raised exception only; the end of the process is
    not an exception. *)
Definition M (S A : Type) : Type := S -> result A * S.

Definition ret {S A} (a : A) : M S A := fun s => (Normal a, s).

Definition bind {S A B} (m : M S A) (k : A -> M S B) : M S B :=
  fun s =>
    match m s with
    | (Normal a, s') => k a s'
    | (Throw e, s') => (Throw e, s')
    | (Exit c, s') => (Exit c, s')
    | (OutOfFuel, s') => (OutOfFuel, s')
    end.

Definition throw {S A} (e : error) : M S A := fun s => (Throw e, s).

Definition lift {S A} (r : result A) : M S A := fun s => (r, s).

Definition try_catch {S A} (m : M S A) (handler : error -> M S A) : M S A :=
  fun s =>
    match m s with
    | (Throw e, s') => handler e s'
    | other => other
    end.

Definition await {S A} (r : reply A) : M S A :=
  match r with
  | Resolved a => ret a
  | Rejected e => throw e
  end.

Module Notations.

Notation "x <- c ;; k" := (bind c (fun x => k))
  (at level 61, c at next level, right associativity).
Notation "c ;;; k" := (bind c (fun _ => k))
  (at level 61, right associativity).

End Notations.

(** An HTTP response as a handler leaves it: [res.status(n).json(body)],
    with the value handed to [res.json] before Express writes it out;
    [res.json(body)] alone is status 200. *)
Record response : Type := { status : Z; body : value }.

End JS.

(** ** What both revisions share: the provider, and the transcription route *)

Module Service.

Import JS JS.Notations.

Record chat_request : Type := {
  model : jsstring;
  temperature : float;
  response_format : jsstring;
  messages : list (jsstring * jsstring)
}.

Record transcription_request : Type := {
  transcription_model : jsstring;
  transcription_file : jsstring
}.

Inductive effect : Type :=
| WroteFile (path : jsstring) (data : list N)
| Transcribed (req : transcription_request)
| Chatted (req : chat_request)
| ConsoleError (err : error).

(** The world outside a handler: the model provider behind [client] and the
    file system.  Each answer may depend on everything the handler has done
    before the call (the file it wrote, for one). *)
Record provider : Type := {
  chat_completions_create : list effect -> chat_request -> reply value;
  audio_transcriptions_create :
    list effect -> transcription_request -> reply value;
  writeFile : list effect -> jsstring -> list N -> reply unit
}.

(** A handler runs over the list of what it has done, oldest first. *)
Definition handler (A : Type) : Type := M (list effect) A.

Definition emit (e : effect) : handler unit :=
  fun done => (Normal tt, done ++ [e]).

(** An awaited call to the outside: it is recorded, then it settles. *)
Definition call {A} (e : effect) (answer : list effect -> reply A) : handler A :=
  fun done => await (answer done) (done ++ [e]).

Definition error_body (code : jsstring) : value :=
  VObj [(str "error", VStr code)].

Definition res_json (code : Z) (payload : value) : handler response :=
  ret {| status := code; body := payload |}.

(** The double quote, which the prompts and the default content contain. *)
Definition dq : jsstring := [34%N].

Section WithProvider.

Variable pv : provider.

(** [POST /api/transcribe], lines 40-57 and 227-243 (the same text in both
    revisions).  [file] is [req.file]: the upload under the field [audio],
    kept in memory, or nothing. *)
Definition transcribe (file : option (list N)) : handler response :=
  try_catch
    (match file with
     | None => res_json 400 (error_body (str "no_audio"))
     | Some buffer =>
         let tmp := str "/tmp/input.webm" in
         call (WroteFile tmp buffer) (fun done => writeFile pv done tmp buffer) ;;;
         let req :=
           {| transcription_model := str "gpt-4o-mini-transcribe";
              transcription_file := tmp |} in
         transcription <-
           call (Transcribed req)
                (fun done => audio_transcriptions_create pv done req) ;;
         text <- lift (get_strict transcription (str "text")) ;;
         res_json 200
           (VObj [(str "text", if truthy text then text else VStr [])])
     end)
    (fun e =>
       emit (ConsoleError e) ;;;
       res_json 500 (error_body (str "transcription_failed"))).

(** [req.body || {}], destructured. *)
Definition body_or_empty (req_body : value) : value :=
  if truthy req_body then req_body else VObj [].

(** The test of lines 65 and 249 (the same text in both revisions). *)
Definition bad_request (text commands : value) : bool :=
  negb (match typeof text with TyString => true | _ => false end)
  || negb (isArray commands)
  || negb (negb (Nat.eqb (length_of commands) 0)).

Definition systemMsg : jsstring :=
  str "Eres un clasificador de intenciones que devuelve JSON estricto.".

(** The JSON shape the prompt ends with:
    [{"command":"<uno de la lista>","confidence":<0..1>}] with its quotes. *)
Definition shape : jsstring :=
  str "{" ++ dq ++ str "command" ++ dq ++ str ":" ++ dq
  ++ str "<uno de la lista>" ++ dq ++ str "," ++ dq ++ str "confidence" ++ dq
  ++ str ":<0..1>}".

(** The prompt; [only] is the one word the revisions spell differently. *)
Definition userMsg (only text listing : jsstring) : jsstring :=
  str "Texto del usuario: " ++ dq ++ text ++ dq ++ str ". "
  ++ str "Elige el comando que mejor aplique de esta lista EXACTA: "
  ++ listing ++ str ". "
  ++ str "Devuelve " ++ only ++ str " un JSON: " ++ shape.

Definition chat_for (user : jsstring) : chat_request :=
  {| model := str "gpt-4o-mini";
     temperature := 0%float;
     response_format := str "json_object";
     messages := [(str "system", systemMsg); (str "user", user)] |}.

Definition elements (v : value) : list value :=
  match v with VArr elems _ => elems | _ => [] end.

Definition string_of (v : value) : jsstring :=
  match v with VStr s => s | _ => [] end.

(** A method of [Array.prototype] is reached unless an own property of the
    array hides it; a hidden one is data, and calling it raises. *)
Definition method_hidden (name : jsstring) (v : value) : bool :=
  match v with
  | VArr _ named => match lookup name named with Some _ => true | None => false end
  | _ => false
  end.

End WithProvider.

End Service.

(** ** First revision (lines 1-100): the credential from the environment *)

Module Variant1.

Import JS JS.Notations Service.

(** [process.env], as far as the program reads it. *)
Record environment : Type := {
  env_OPENAI_API_KEY : option jsstring;
  env_PORT : option jsstring
}.

Definition env_value (x : option jsstring) : value :=
  match x with Some s => VStr s | None => VUndefined end.

(** [const PORT = process.env.PORT || 5500;] *)
Definition PORT (env : environment) : value :=
  if truthy (env_value (env_PORT env)) then env_value (env_PORT env)
  else VNum 5500%float.

(** The early check of lines 13-16. *)
Definition early_check (env : environment) : result unit :=
  if negb (truthy (env_value (env_OPENAI_API_KEY env))) then Exit 1
  else Normal tt.

(** What the top level of the first revision leaves running: the client
    built from the environment, and the port [app.listen] was called
    with. *)
Record server : Type := { client_apiKey : value; requested_port : value }.

(** The top level, lines 10-24 and 98-100: the early check, then
    [new OpenAI({ apiKey: process.env.OPENAI_API_KEY })] and
    [app.listen(PORT)].  An exception of [app.listen] is caught by nothing:
    it is the end of the process. *)
Definition startup (h : host) (env : environment) : result server :=
  rbind (early_check env) (fun _ =>
  match app_listen h (PORT env) with
  | Resolved _ =>
      Normal {| client_apiKey := env_value (env_OPENAI_API_KEY env);
                requested_port := PORT env |}
  | Rejected e => Throw e
  end).

(** [GET /api/health], lines 29-35. *)
Definition health (env : environment) : response :=
  {| status := 200;
     body := VObj [(str "ok", VBool true);
                   (str "port", PORT env);
                   (str "hasKey",
                    VBool (negb (negb (truthy (env_value (env_OPENAI_API_KEY env))))))] |}.

Section WithHost.

Variables (h : host) (pv : provider).

(** [POST /api/intent], lines 62-95. *)
Definition intent (req_body : value) : handler response :=
  try_catch
    (let text := get (body_or_empty req_body) (str "text") in
     let commands := get (body_or_empty req_body) (str "commands") in
     if bad_request text commands
     then res_json 400 (error_body (str "bad_request"))
     else
       listing <-
         lift (if method_hidden (str "join") commands then Throw TypeError
               else join h (str ", ") (elements commands)) ;;
       let req := chat_for (userMsg (str "solo") (string_of text) listing) in
       chat <- call (Chatted req) (fun done => chat_completions_create pv done req) ;;
       choices <- lift (get_strict chat (str "choices")) ;;
       choice <- lift (get_strict choices (str "0")) ;;
       message <- lift (get_strict choice (str "message")) ;;
       content <- lift (get_strict message (str "content")) ;;
       json <- lift (JSON_parse h content) ;;
       json <- lift (set json (str "source") (VStr (str "openai"))) ;;
       json <-
         lift (match typeof (get json (str "confidence")) with
               | TyNumber => Normal json
               | _ => set json (str "confidence") (VNum 0.5%float)
               end) ;;
       json <-
         lift (match typeof (get json (str "command")) with
               | TyString => Normal json
               | _ => set json (str "command") VNull
               end) ;;
       res_json 200 json)
    (fun e =>
       emit (ConsoleError e) ;;;
       res_json 500 (error_body (str "intent_failed"))).

End WithHost.

End Variant1.

(** ** Second revision (lines 101-297): remote credential, then the server *)

Module Variant2.

Import JS JS.Notations.

Definition MOCKAPI_URL : jsstring :=
  str "https://68e5388e8e116898997ee625.mockapi.io/apikey".

(** A settled [fetch]: the status line and what [res.json()] settles to. *)
Record fetch_response : Type := {
  res_status : Z;
  res_json : reply value
}.

(** [res.ok] *)
Definition res_ok (res : fetch_response) : bool :=
  Z.leb 200 (res_status res) && Z.leb (res_status res) 299.

Inductive event : Type :=
| Fetched (url method : jsstring) (timeoutMs : Z)
| Waited (delayMs : Z)
| WarnAttemptFailed (attempt : Z) (err : error)
| InfoKeyFromMockAPI
| WarnNoKeyFromMockAPI
| WarnMockAPIError (err : error)
| InfoKeyFromEnv
| FatalNoKey
| FatalStartup (err : error)
| ClientCreated (apiKey : value)
| ListenReturned (port : value).

(** The process: what surrounds it (the endpoint's answer to each request in
    turn, the environment), its two module-level variables, and what it has
    done so far, oldest first. *)
Record process : Type := {
  remote : nat -> reply fetch_response;
  env_OPENAI_API_KEY : option jsstring;
  env_PORT : option jsstring;
  sent : nat;
  OPENAI_API_KEY : value;
  KEY_SOURCE : value;
  trace : list event
}.

(** [let OPENAI_API_KEY = null; let KEY_SOURCE = null;] *)
Definition start (endpoint : nat -> reply fetch_response)
    (key port : option jsstring) : process :=
  {| remote := endpoint; env_OPENAI_API_KEY := key; env_PORT := port;
     sent := 0; OPENAI_API_KEY := VNull; KEY_SOURCE := VNull; trace := [] |}.

Definition emit (e : event) : M process unit :=
  fun p =>
    (Normal tt,
     {| remote := remote p; env_OPENAI_API_KEY := env_OPENAI_API_KEY p;
        env_PORT := env_PORT p; sent := sent p;
        OPENAI_API_KEY := OPENAI_API_KEY p; KEY_SOURCE := KEY_SOURCE p;
        trace := trace p ++ [e] |}).

(** [process.env.X]: a string, or [undefined] when unset. *)
Definition env_value (x : option jsstring) : value :=
  match x with Some s => VStr s | None => VUndefined end.

(** [const PORT = process.env.PORT || 5500;] *)
Definition PORT (p : process) : value :=
  if truthy (env_value (env_PORT p)) then env_value (env_PORT p)
  else VNum 5500%float.

(** [fetchWithTimeout]: the request goes out, and the answer is the
    endpoint's to this request; an abort after [timeoutMs] is one of the
    rejections.  Both paths clear the timer and hand the outcome on. *)
Definition fetchWithTimeout (url method : jsstring) (timeoutMs : Z)
  : M process fetch_response :=
  fun p =>
    let answer := remote p (sent p) in
    let p' :=
      {| remote := remote p; env_OPENAI_API_KEY := env_OPENAI_API_KEY p;
         env_PORT := env_PORT p; sent := S (sent p);
         OPENAI_API_KEY := OPENAI_API_KEY p; KEY_SOURCE := KEY_SOURCE p;
         trace := trace p ++ [Fetched url method timeoutMs] |} in
    try_catch (await answer) (fun err => throw err) p'.

(** [wait(delayMs)] *)
Definition wait (delayMs : Z) : M process unit := emit (Waited delayMs).

Definition possibleFields : list jsstring :=
  [str "api_key"; str "apikey"; str "key"; str "token"; str "value";
   str "secret"; str "apiKey"].

(** [Object.keys(v)] *)
Definition Object_keys (v : value) : list jsstring := map fst (own_entries v).

Section WithHost.

Variable h : host.

(** The first loop of [extractKeyFromBody]: [Some] is its [return] (or the
    exception of [String]), [None] its running to the end. *)
Fixpoint scan_fields (candidate : value) (fields : list jsstring)
  : option (result value) :=
  match fields with
  | [] => None
  | f :: rest =>
      if truthy candidate && hasOwnProperty candidate f
         && truthy (get candidate f)
      then Some (rbind (ToString h (get candidate f)) (fun s =>
                 Normal (VStr (trim s))))
      else scan_fields candidate rest
  end.

(** The second loop, over [Object.keys(candidate)]. *)
Fixpoint scan_keys (candidate : value) (keys : list jsstring) : option value :=
  match keys with
  | [] => None
  | k :: rest =>
      match get candidate k with
      | VStr s =>
          if Nat.ltb 20 (List.length s) then Some (VStr (trim s))
          else scan_keys candidate rest
      | _ => scan_keys candidate rest
      end
  end.

Definition is_object (v : value) : bool :=
  match typeof v with TyObject => true | _ => false end.

Definition extractKeyFromBody (body : value) : result value :=
  if negb (truthy body) then Normal VNull
  else
    let candidate :=
      if isArray body && negb (Nat.eqb (length_of body) 0)
      then get body (str "0") else body in
    match scan_fields candidate possibleFields with
    | Some r => r
    | None =>
        match
          (if truthy candidate && is_object candidate
           then scan_keys candidate (Object_keys candidate) else None)
        with
        | Some key => Normal key
        | None => Normal VNull
        end
    end.

Section Retry.

Variables (maxAttempts delayMs : Z).

(** One turn of the loop of [loadKeyFromMockAPI]: [Some key] is
    [return key], [None] leads to the next turn. *)
Definition attempt_once (attempt : Z) : M process (option value) :=
  try_catch
    (res <- fetchWithTimeout MOCKAPI_URL (str "GET") 8000 ;;
     (if negb (res_ok res) then throw (HttpError (res_status res))
      else ret tt) ;;;
     body <- await (res_json res) ;;
     key <- lift (extractKeyFromBody body) ;;
     if truthy key then ret (Some key) else throw NoKeyInResponse)
    (fun err =>
       emit (WarnAttemptFailed attempt err) ;;;
       (if Z.ltb attempt maxAttempts then wait delayMs else ret tt) ;;;
       ret None).

(** [for (let attempt = ...; attempt <= maxAttempts; attempt++)], with a
    bound on the number of turns. *)
Fixpoint attempts_from (fuel : nat) (attempt : Z) : M process value :=
  if Z.leb attempt maxAttempts then
    match fuel with
    | O => lift OutOfFuel
    | S fuel' =>
        r <- attempt_once attempt ;;
        match r with
        | Some key => ret key
        | None => attempts_from fuel' (attempt + 1)
        end
    end
  else ret VNull.

Definition loadKeyFromMockAPI : M process value :=
  attempts_from (Z.to_nat maxAttempts) 1.

End Retry.

Definition set_key (key source : value) : M process unit :=
  fun p =>
    (Normal tt,
     {| remote := remote p; env_OPENAI_API_KEY := env_OPENAI_API_KEY p;
        env_PORT := env_PORT p; sent := sent p;
        OPENAI_API_KEY := key; KEY_SOURCE := source; trace := trace p |}).

(** [process.exit(code)] *)
Definition process_exit {A} (code : Z) : M process A := lift (Exit code).

Definition read_env_OPENAI_API_KEY : M process value :=
  fun p => (Normal (env_value (env_OPENAI_API_KEY p)), p).

(** [initKey].  The [try] block tells whether it returned from the
    function. *)
Definition initKey : M process unit :=
  returned <-
    try_catch
      (key <- loadKeyFromMockAPI 3 1500 ;;
       if truthy key then
         set_key key (VStr (str "mockapi")) ;;;
         emit InfoKeyFromMockAPI ;;;
         ret true
       else
         emit WarnNoKeyFromMockAPI ;;;
         ret false)
      (fun err => emit (WarnMockAPIError err) ;;; ret false) ;;
  if returned : bool then ret tt
  else
    fallback <- read_env_OPENAI_API_KEY ;;
    if truthy fallback then
      set_key fallback (VStr (str "env")) ;;;
      emit InfoKeyFromEnv ;;;
      ret tt
    else
      emit FatalNoKey ;;;
      process_exit 1.

(** [main]: the client is built from the variable, the routes are
    registered, and [app.listen(PORT, ...)] is called.  When the call
    returns, [main] is over, and the trace keeps the port the call was
    given; when it raises, so does [main].  The callback runs later, if the
    server is bound, and is no part of [main]. *)
Definition main : M process unit :=
  initKey ;;;
  key <- (fun p => (Normal (OPENAI_API_KEY p), p)) ;;
  emit (ClientCreated key) ;;;
  port <- (fun p => (Normal (PORT p), p)) ;;
  await (app_listen h port) ;;;
  emit (ListenReturned port).

(** [main().catch(err => { console.error(...); process.exit(1); })] *)
Definition run : M process unit :=
  try_catch main (fun err => emit (FatalStartup err) ;;; process_exit 1).

(** Whether the process goes on to serve after [run]: [main] is over with
    the routes registered and [app.listen] called, and nothing has ended the
    process. *)
Definition serving (outcome : result unit * process) : bool :=
  match fst outcome with Normal _ => true | _ => false end.

(** [GET /api/health], lines 222-224. *)
Definition health (p : process) : response :=
  {| status := 200;
     body := VObj [(str "ok", VBool true);
                   (str "port", PORT p);
                   (str "keySource",
                    if truthy (KEY_SOURCE p) then KEY_SOURCE p else VNull)] |}.

Variable pv : Service.provider.

(** [chat.choices?.[0]?.message?.content ?? "{}"] *)
Definition content_or_default (chat : value) : result value :=
  rbind (get_strict chat (str "choices")) (fun choices =>
  let content :=
    get_optional (get_optional (get_optional choices (str "0"))
                               (str "message")) (str "content") in
  Normal (if nullish content then VStr (str "{}") else content)).

(** A destructuring default: [{ name = fallback } = out], [out] not nullish. *)
Definition field_or (out : value) (name : jsstring) (fallback : value) : value :=
  match get out name with
  | VUndefined => fallback
  | x => x
  end.

(** [POST /api/intent], lines 246-286. *)
Definition intent (req_body : value) : Service.handler response :=
  try_catch
    (let text := get (Service.body_or_empty req_body) (str "text") in
     let commands := get (Service.body_or_empty req_body) (str "commands") in
     if Service.bad_request text commands
     then Service.res_json 400 (Service.error_body (str "bad_request"))
     else
       listing <-
         lift (if Service.method_hidden (str "join") commands then Throw TypeError
               else join h (str ", ") (Service.elements commands)) ;;
       let req :=
         Service.chat_for
           (Service.userMsg (str "s" ++ [243%N] ++ str "lo")
                            (Service.string_of text) listing) in
       chat <-
         Service.call (Service.Chatted req)
           (fun done => Service.chat_completions_create pv done req) ;;
       out <-
         try_catch
           (lift (rbind (content_or_default chat) (JSON_parse h)))
           (fun _ => ret (VObj [])) ;;
       whitelist <-
         lift (if Service.method_hidden (str "map") commands then Throw TypeError
               else map_String h (Service.elements commands)) ;;
       (if nullish out then throw TypeError else ret tt) ;;;
       let command := field_or out (str "command") VNull in
       let confidence := field_or out (str "confidence") (VNum 0.5%float) in
       let command := if negb (Set_has whitelist command) then VNull else command in
       number <- lift (ToNumber h confidence) ;;
       Service.res_json 200
         (VObj [(str "command", command);
                (str "confidence",
                 if truthy (VNum number) then VNum number else VNum 0.5%float);
                (str "source", VStr (str "openai"))]))
    (fun e =>
       Service.emit (Service.ConsoleError e) ;;;
       Service.res_json 500 (Service.error_body (str "intent_failed"))).

End WithHost.

End Variant2.

(** ** What the properties are stated with

    The words of the specification, as definitions of their own (their names
    start with [spec_]); the states and runs the statements name; and the
    inputs of the closed examples. *)

Module Statements.

Import JS JS.Notations Service Variant2.

Local Open Scope Z_scope.

(** *** Conversions *)

(** A conversion ends in a value or in an exception: it neither ends the
    process nor loops. *)
Definition settles {A} (r : result A) : Prop :=
  match r with
  | Normal _ | Throw _ => True
  | Exit _ | OutOfFuel => False
  end.

(** *** Field extraction *)

(** What the specification says of the extraction, in its words: the
    candidate is the first element of a non-empty array and the body itself
    otherwise; a named field counts when it is present and truthy; a string
    looks like a secret when it is longer than 20. *)
Definition spec_candidate (body : value) : value :=
  match body with VArr (x :: _) _ => x | _ => body end.

Definition spec_present_truthy (c : value) (f : jsstring) : bool :=
  hasOwnProperty c f && truthy (get c f).

Definition spec_looks_like_secret (v : value) : bool :=
  match v with VStr s => Nat.ltb 20 (List.length s) | _ => false end.

(** The six names the specification lists; the program has a seventh. *)
Definition spec_fields : list jsstring :=
  [str "api_key"; str "apikey"; str "key"; str "token"; str "value";
   str "secret"].

(** A runtime for closed examples: it reads the numerals and the documents
    listed, as ECMAScript does, and nothing else; no example renders a
    number.  Of the ports, the examples use the default, the number 5500,
    for which the call of [app.listen] returns, and the string 99999, out of
    range, for which it raises; it raises for any other value as well, and
    no example has one. *)
Definition runtime (numerals : list (jsstring * float))
    (documents : list (jsstring * value)) : host :=
  {| Number_toString := fun _ => str "NaN";
     StringToNumber := fun s =>
       match find (fun e => str_eqb s (fst e)) numerals with
       | Some e => snd e
       | None => PrimFloat.nan
       end;
     JSON_parse_text := fun s => lookup s documents;
     app_listen := fun port =>
       match port with
       | VNum n =>
           if PrimFloat.eqb n 5500%float then Resolved tt
           else Rejected (External (str "ERR_SOCKET_BAD_PORT"))
       | _ => Rejected (External (str "ERR_SOCKET_BAD_PORT"))
       end |}.

(** *** The resolver and the bootstrap *)

(** [p] after [n] more requests and the events [es]. *)
Definition advance (p : process) (n : nat) (es : list event) : process :=
  {| remote := remote p; env_OPENAI_API_KEY := env_OPENAI_API_KEY p;
     env_PORT := env_PORT p; sent := n + sent p;
     OPENAI_API_KEY := OPENAI_API_KEY p; KEY_SOURCE := KEY_SOURCE p;
     trace := trace p ++ es |}.

(** [p] with the credential and its source installed. *)
Definition install (p : process) (key source : value) : process :=
  {| remote := remote p; env_OPENAI_API_KEY := env_OPENAI_API_KEY p;
     env_PORT := env_PORT p; sent := sent p;
     OPENAI_API_KEY := key; KEY_SOURCE := source; trace := trace p |}.

(** [main] from the state [p] in which [initKey] returned: the client is
    built from the variable, then [app.listen] returns, or it raises and the
    [catch] of [main()] exits with status 1. *)
Definition after_initKey (h : host) (p : process) : result unit * process :=
  match app_listen h (PORT p) with
  | Resolved _ =>
      (Normal tt,
       advance p 0 [ClientCreated (OPENAI_API_KEY p); ListenReturned (PORT p)])
  | Rejected e =>
      (Exit 1,
       advance p 0 [ClientCreated (OPENAI_API_KEY p); FatalStartup e])
  end.

(** What the specification counts as a failed attempt: a network error or a
    timeout, a status that is not a success, and a body from which no key
    comes out (unreadable, or read and without a truthy key). *)
Inductive spec_fails (h : host) : reply fetch_response -> Prop :=
| fails_network (e : error) : spec_fails h (Rejected e)
| fails_status (res : fetch_response) :
    res_ok res = false -> spec_fails h (Resolved res)
| fails_unreadable (res : fetch_response) (e : error) :
    res_json res = Rejected e -> spec_fails h (Resolved res)
| fails_no_key (res : fetch_response) (body : value) :
    res_json res = Resolved body ->
    (forall key, extractKeyFromBody h body = Normal key -> truthy key = false) ->
    spec_fails h (Resolved res).

Definition is_request_or_wait (e : event) : bool :=
  match e with
  | Fetched _ _ _ | Waited _ => true
  | _ => false
  end.

(** Requests one after the other, the delay between two of them. *)
Fixpoint spec_schedule (delayMs : Z) (n : nat) : list event :=
  match n with
  | O => []
  | S m =>
      Fetched MOCKAPI_URL (str "GET") 8000
      :: match m with
         | O => []
         | S _ => Waited delayMs :: spec_schedule delayMs m
         end
  end.

(** How one answer of the endpoint ends a turn of the loop: with the key
    that is returned, or with the error that is logged. *)
Definition turn_outcome (h : host) (answer : reply fetch_response) : value + error :=
  match answer with
  | Rejected e => inr e
  | Resolved res =>
      if res_ok res then
        match res_json res with
        | Rejected e => inr e
        | Resolved body =>
            match extractKeyFromBody h body with
            | Normal key => if truthy key then inl key else inr NoKeyInResponse
            | Throw e => inr e
            | Exit _ | OutOfFuel => inr TypeError
            end
        end
      else inr (HttpError (res_status res))
  end.

(** An endpoint that is down, then answers 503, then answers 200 with an
    object that holds no key. *)
Definition failing_endpoint (n : nat) : reply fetch_response :=
  match n with
  | O => Rejected (External (str "fetch failed"))
  | S O => Resolved {| res_status := 503; res_json := Resolved VNull |}
  | _ =>
      Resolved {| res_status := 200;
                  res_json := Resolved (VObj [(str "id", VStr (str "1"))]) |}
  end.

(** An endpoint that answers the first request with a key under [key]. *)
Definition answering_endpoint (n : nat) : reply fetch_response :=
  Resolved {| res_status := 200;
              res_json :=
                Resolved (VArr [VObj [(str "id", VStr (str "1"));
                                      (str "key", VStr (str " sk-remote "))]] []) |}.

(** An endpoint whose key is white space: truthy as it stands, empty once
    trimmed. *)
Definition blank_endpoint (n : nat) : reply fetch_response :=
  Resolved {| res_status := 200;
              res_json := Resolved (VObj [(str "key", VStr (str "   "))]) |}.

(** *** The routes *)

(** The request the specification calls well formed: [text] is a string
    (the empty one too) and [commands] is an array that is not empty. *)
Definition spec_well_formed (text commands : value) : Prop :=
  (exists s, text = VStr s)
  /\ (exists x rest named, commands = VArr (x :: rest) named).

Definition bad_request_response : response :=
  {| status := 400; body := error_body (str "bad_request") |}.

Definition text_of (req_body : value) : value :=
  get (body_or_empty req_body) (str "text").

Definition commands_of (req_body : value) : value :=
  get (body_or_empty req_body) (str "commands").

(** A handler step that ends in a value with [Q] or in an exception, in
    every state. *)
Definition yields {A} (m : handler A) (Q : A -> Prop) : Prop :=
  forall done,
    match m done with
    | (Normal a, _) => Q a
    | (Throw _, _) => True
    | (Exit _, _) | (OutOfFuel, _) => False
    end.

(** The one word of the prompt that differs. *)
Definition only1 : jsstring := str "solo".

Definition only2 : jsstring := str "s" ++ [243%N] ++ str "lo".

(** The request passes validation with the commands [elems], as a JSON body
    gives them; the prompt is built, and the provider answers it with
    [chat]. *)
Definition answered (h : host) (pv : provider) (only : jsstring)
    (req_body : value) (done : list effect)
    (elems : list value) (chat : value) : Prop :=
  exists text listing,
    text_of req_body = VStr text
    /\ commands_of req_body = VArr elems []
    /\ elems <> []
    /\ join h (str ", ") elems = Normal listing
    /\ chat_completions_create pv done (chat_for (userMsg only text listing))
       = Resolved chat.

(** [chat.choices[0].message.content], as the first revision reads it. *)
Definition strict_content (chat : value) : result value :=
  rbind (get_strict chat (str "choices")) (fun choices =>
  rbind (get_strict choices (str "0")) (fun choice =>
  rbind (get_strict choice (str "message")) (fun message =>
  get_strict message (str "content")))).

(** The command the model returned is the string of a member of the list. *)
Definition spec_matches_member (h : host) (elems : list value) (command : value) : Prop :=
  exists s m, command = VStr s /\ In m elems /\ ToString h m = Normal s.

(** *** One request, and a provider with one answer *)

Definition lights_request : value :=
  VObj [(str "text", VStr (str "turn on the light"));
        (str "commands",
         VArr [VStr (str "lights_on"); VStr (str "lights_off")] [])].

Definition chat_with (content : jsstring) : value :=
  VObj [(str "choices",
         VArr [VObj [(str "message",
                      VObj [(str "content", VStr content)])]] [])].

(** A provider whose model answers every prompt with [content]; nothing is
    transcribed. *)
Definition answering (content : jsstring) : provider :=
  {| chat_completions_create := fun _ _ => Resolved (chat_with content);
     audio_transcriptions_create := fun _ _ => Rejected (External (str "unused"));
     writeFile := fun _ _ _ => Rejected (External (str "unused")) |}.

Definition quoted (s : string) : jsstring := dq ++ str s ++ dq.

(** [{"command":"lights_dim"}] *)
Definition dim_text : jsstring :=
  str "{" ++ quoted "command" ++ str ":" ++ quoted "lights_dim" ++ str "}".

Definition dim_value : value := VObj [(str "command", VStr (str "lights_dim"))].

(** [{"command":"lights_on","confidence":"0.9"}] *)
Definition quoted_confidence_text : jsstring :=
  str "{" ++ quoted "command" ++ str ":" ++ quoted "lights_on" ++ str ","
  ++ quoted "confidence" ++ str ":" ++ quoted "0.9" ++ str "}".

Definition quoted_confidence_value : value :=
  VObj [(str "command", VStr (str "lights_on"));
        (str "confidence", VStr (str "0.9"))].

(** [{"command":"lights_on","confidence":0}] *)
Definition zero_confidence_text : jsstring :=
  str "{" ++ quoted "command" ++ str ":" ++ quoted "lights_on" ++ str ","
  ++ quoted "confidence" ++ str ":0}".

Definition zero_confidence_value : value :=
  VObj [(str "command", VStr (str "lights_on"));
        (str "confidence", VNum 0%float)].

(** [{"command":"lights_on","confidence":0.9}] *)
Definition sure_text : jsstring :=
  str "{" ++ quoted "command" ++ str ":" ++ quoted "lights_on" ++ str ","
  ++ quoted "confidence" ++ str ":0.9}".

Definition sure_value : value :=
  VObj [(str "command", VStr (str "lights_on"));
        (str "confidence", VNum 0.9%float)].

Definition documents : list (jsstring * value) :=
  [(dim_text, dim_value);
   (quoted_confidence_text, quoted_confidence_value);
   (zero_confidence_text, zero_confidence_value);
   (sure_text, sure_value);
   (str "{}", VObj [])].

Definition example_host : host :=
  runtime [(str "0.9", 0.9%float)] documents.

(** *** More words for the extraction *)

(** No white space at either end. *)
Definition spec_trimmed (s : jsstring) : Prop :=
  (forall c rest, s = c :: rest -> is_white_space c = false)
  /\ (forall front c, s = front ++ [c] -> is_white_space c = false).

(** Neither an object nor an array. *)
Definition primitive (v : value) : bool :=
  match v with
  | VArr _ _ | VObj _ => false
  | _ => true
  end.

(** A key that does not start with a digit, so that it names no element of
    an array and no code unit of a string. *)
Definition not_an_index (k : jsstring) : bool :=
  match k with
  | c :: _ => negb (N.leb 48 c && N.leb c 57)
  | [] => true
  end.

(** *** More words for the resolver *)

(** An attempt that gives a key: a success status, a readable body, and a
    truthy key out of it. *)
Inductive spec_succeeds (h : host) : reply fetch_response -> value -> Prop :=
| succeeds_with (res : fetch_response) (body key : value) :
    res_ok res = true ->
    res_json res = Resolved body ->
    extractKeyFromBody h body = Normal key ->
    truthy key = true ->
    spec_succeeds h (Resolved res) key.

Definition is_request (e : event) : bool :=
  match e with
  | Fetched _ _ _ => true
  | _ => false
  end.

(** An endpoint that is down twice, then answers with a key. *)
Definition recovering_endpoint (n : nat) : reply fetch_response :=
  match n with
  | O | S O => Rejected (External (str "fetch failed"))
  | _ => answering_endpoint n
  end.

(** *** More words for the routes *)

(** A handler step, with what it adds to the effects: it ends in a value or
    in an exception, and [Q] holds of the effects added and of the end. *)
Definition steps {A} (m : handler A) (Q : list effect -> result A -> Prop) : Prop :=
  forall done, exists es,
    snd (m done) = done ++ es
    /\ settles (fst (m done))
    /\ Q es (fst (m done)).

(** The request passes validation with the commands [elems], and [req] is
    the request the handler sends to the provider for it. *)
Definition asked (h : host) (only : jsstring) (req_body : value)
    (elems : list value) (req : chat_request) : Prop :=
  exists text listing,
    text_of req_body = VStr text
    /\ commands_of req_body = VArr elems []
    /\ elems <> []
    /\ join h (str ", ") elems = Normal listing
    /\ req = chat_for (userMsg only text listing).

Definition intent_failed_response : response :=
  {| status := 500; body := error_body (str "intent_failed") |}.

Definition transcription_failed_response : response :=
  {| status := 500; body := error_body (str "transcription_failed") |}.

(** The 200 response of the second revision. *)
Definition classified (command : value) (confidence : float) : response :=
  {| status := 200;
     body := VObj [(str "command", command);
                   (str "confidence", VNum confidence);
                   (str "source", VStr (str "openai"))] |}.

(** The request the transcription route sends. *)
Definition transcription_of_tmp : transcription_request :=
  {| transcription_model := str "gpt-4o-mini-transcribe";
     transcription_file := str "/tmp/input.webm" |}.

(** A provider that transcribes everything as [transcription], on a file
    system that accepts every write. *)
Definition transcribing (transcription : value) : provider :=
  {| chat_completions_create := fun _ _ => Rejected (External (str "unused"));
     audio_transcriptions_create := fun _ _ => Resolved transcription;
     writeFile := fun _ _ _ => Resolved tt |}.

(** A provider that is down, on a file system that accepts every write. *)
Definition unreachable : provider :=
  {| chat_completions_create := fun _ _ => Rejected (External (str "ECONNRESET"));
     audio_transcriptions_create := fun _ _ => Rejected (External (str "ECONNRESET"));
     writeFile := fun _ _ _ => Resolved tt |}.

(** A provider whose model answers with no choice at all. *)
Definition speechless : provider :=
  {| chat_completions_create := fun _ _ => Resolved (VObj [(str "choices", VArr [] [])]);
     audio_transcriptions_create := fun _ _ => Rejected (External (str "unused"));
     writeFile := fun _ _ _ => Rejected (External (str "unused")) |}.

(** What ends a run of the body of the intent route, before its [catch]:
    a rejected request has its answer and no effect; an accepted one has
    asked the provider once when it answers, with a [good] response, and at
    most once when it raises. *)
Definition intent_end (valid : bool) (good : response -> Prop)
    (es : list effect) (r : result response) : Prop :=
  match r with
  | Normal resp =>
      if valid then exists req, es = [Chatted req] /\ good resp
      else resp = bad_request_response /\ es = []
  | Throw _ => valid = true /\ (es = [] \/ exists req, es = [Chatted req])
  | Exit _ | OutOfFuel => False
  end.

(** A response of the second revision: the three fields, a confidence that
    is neither NaN nor zero, and a command that is [null] or matches a
    member of the list. *)
Definition well_classified (h : host) (commands : value) (resp : response) : Prop :=
  exists command confidence,
    resp = classified command confidence
    /\ PrimFloat.is_nan confidence = false
    /\ PrimFloat.is_zero confidence = false
    /\ (command = VNull \/ spec_matches_member h (elements commands) command).

(** A response of the first revision: status 200, a confidence that is a
    number, a command that is a string or [null], and the source. *)
Definition well_labelled (resp : response) : Prop :=
  status resp = 200
  /\ typeof (get (body resp) (str "confidence")) = TyNumber
  /\ (get (body resp) (str "command") = VNull
      \/ typeof (get (body resp) (str "command")) = TyString)
  /\ get (body resp) (str "source") = VStr (str "openai").

(** Whether the request passes the test of the route. *)
Definition valid_request (req_body : value) : bool :=
  negb (bad_request (text_of req_body) (commands_of req_body)).

(** The effects of a run of the intent route, by its answer: none for a
    rejected request; one call to the provider for a 200; for a 500, the
    error logged, after at most one call. *)
Definition accounted (resp : response) (es : list effect) : Prop :=
  (resp = bad_request_response /\ es = [])
  \/ (status resp = 200 /\ exists req, es = [Chatted req])
  \/ (resp = intent_failed_response
      /\ ((exists e, es = [ConsoleError e])
          \/ exists req e, es = [Chatted req; ConsoleError e])).

(** A runtime that reads the two documents [null] and [5]. *)
Definition scalar_host : host :=
  runtime [] [(str "null", VNull); (str "5", VNum 5%float)].

End Statements.

(** * Properties *)

Unset Implicit Arguments.

(** ** Values and conversions *)

Module JSFacts.

Import JS Statements.

Lemma str_eqb_refl (a : jsstring) : str_eqb a a = true.
Proof.
  induction a as [|x a IH]; simpl; [reflexivity|].
  now rewrite N.eqb_refl, IH.
Qed.

Lemma str_eqb_eq (a b : jsstring) : str_eqb a b = true <-> a = b.
Proof.
  split; [|intros ->; apply str_eqb_refl].
  revert b; induction a as [|x a IH]; intros [|y b]; simpl; try discriminate; auto.
  intros H; apply andb_true_iff in H as [Hx Hr].
  apply N.eqb_eq in Hx; subst y. now rewrite (IH b Hr).
Qed.

(** Structural induction on values, through the lists they nest. *)
Section ValueInduction.

Variable P : value -> Prop.
Hypothesis P_undefined : P VUndefined.
Hypothesis P_null : P VNull.
Hypothesis P_bool : forall b, P (VBool b).
Hypothesis P_num : forall n, P (VNum n).
Hypothesis P_str : forall s, P (VStr s).
Hypothesis P_arr : forall elems named,
  Forall P elems -> Forall (fun kv => P (snd kv)) named -> P (VArr elems named).
Hypothesis P_obj : forall props,
  Forall (fun kv => P (snd kv)) props -> P (VObj props).

Fixpoint value_nested_ind (v : value) : P v :=
  let elements :=
    fix go (l : list value) : Forall P l :=
      match l with
      | [] => Forall_nil _
      | x :: rest => Forall_cons x (value_nested_ind x) (go rest)
      end in
  let properties :=
    fix go (l : list (jsstring * value)) : Forall (fun kv => P (snd kv)) l :=
      match l with
      | [] => Forall_nil _
      | kv :: rest =>
          Forall_cons (P := fun kv => P (snd kv)) kv
                      (value_nested_ind (snd kv)) (go rest)
      end in
  match v with
  | VUndefined => P_undefined
  | VNull => P_null
  | VBool b => P_bool b
  | VNum n => P_num n
  | VStr s => P_str s
  | VArr elems named => P_arr elems named (elements elems) (properties named)
  | VObj props => P_obj props (properties props)
  end.

End ValueInduction.

Lemma settles_rbind {A B} (r : result A) (k : A -> result B) :
  settles r -> (forall a, settles (k a)) -> settles (rbind r k).
Proof. destruct r; simpl; auto. Qed.

Lemma ToString_settles (h : host) (v : value) : settles (ToString h v).
Proof.
  induction v as [| |[|]|n|s|elems named IHe _|props _] using value_nested_ind;
    simpl; try exact I.
  - destruct (lookup (str "toString") named); [exact I|].
    destruct (lookup (str "join") named); [exact I|].
    induction IHe as [|x rest Hx _ IH]; [exact I|].
    apply settles_rbind.
    + destruct (nullish x); [exact I | exact Hx].
    + intros s. destruct rest; [exact I|].
      apply settles_rbind; [exact IH | intros; exact I].
  - destruct (lookup (str "toString") props); exact I.
Qed.

Lemma join_settles (h : host) (sep : jsstring) (elems : list value) :
  settles (join h sep elems).
Proof.
  induction elems as [|x rest IH]; [exact I|]. simpl.
  apply settles_rbind.
  - destruct (nullish x); [exact I | apply ToString_settles].
  - intros s. destruct rest; [exact I|].
    apply settles_rbind; [exact IH | intros; exact I].
Qed.

Lemma map_String_settles (h : host) (elems : list value) :
  settles (map_String h elems).
Proof.
  induction elems as [|x rest IH]; [exact I|]. simpl.
  apply settles_rbind; [apply ToString_settles|].
  intros s. apply settles_rbind; [exact IH | intros; exact I].
Qed.

Lemma ToNumber_settles (h : host) (v : value) : settles (ToNumber h v).
Proof.
  destruct v as [| |[|]| | |elems named|props]; try exact I;
    unfold ToNumber;
    (apply settles_rbind; [apply ToString_settles | intros; exact I]).
Qed.

Lemma JSON_parse_settles (h : host) (v : value) : settles (JSON_parse h v).
Proof.
  unfold JSON_parse. apply settles_rbind; [apply ToString_settles|].
  intros s. destruct (JSON_parse_text h s); exact I.
Qed.

Lemma get_strict_settles (v : value) (k : jsstring) : settles (get_strict v k).
Proof. unfold get_strict. destruct (nullish v); exact I. Qed.

Lemma set_settles (v : value) (k : jsstring) (x : value) : settles (set v k x).
Proof. destruct v; exact I. Qed.

Lemma join_cons (h : host) (sep : jsstring) (x : value) (rest : list value) :
  join h sep (x :: rest) =
  rbind (if nullish x then Normal [] else ToString h x) (fun s =>
  match rest with
  | [] => Normal s
  | _ :: _ => rbind (join h sep rest) (fun r => Normal (s ++ sep ++ r))
  end).
Proof. reflexivity. Qed.

(** Where every element converts for [join], every element converts for
    [map(String)]: the two differ on [null] and [undefined] only, which
    [String] renders. *)
Lemma join_map_String (h : host) (sep : jsstring) (elems : list value) (l : jsstring) :
  join h sep elems = Normal l -> exists w, map_String h elems = Normal w.
Proof.
  revert l; induction elems as [|x rest IH]; intros l H; [simpl; eauto|].
  rewrite join_cons in H.
  assert (Hx : exists s, ToString h x = Normal s).
  { destruct (nullish x) eqn:Hn.
    - destruct x; try discriminate; simpl; eauto.
    - destruct (ToString h x); try discriminate; eauto. }
  assert (Hr : exists w, map_String h rest = Normal w).
  { destruct rest as [|y rest']; [simpl; eauto|].
    destruct (if nullish x then Normal [] else ToString h x);
      cbn [rbind] in H; try discriminate.
    destruct (join h sep (y :: rest')) eqn:Hj; cbn [rbind] in H; try discriminate.
    exact (IH _ eq_refl). }
  destruct Hx as [s Hs], Hr as [w Hw].
  exists (s :: w). cbn [map_String]. now rewrite Hs, Hw.
Qed.

(** The members of [commands.map(String)] are the conversions of the
    members of [commands]. *)
Lemma map_String_In (h : host) (elems : list value) (w : list jsstring) (s : jsstring) :
  map_String h elems = Normal w -> In s w ->
  exists m, In m elems /\ ToString h m = Normal s.
Proof.
  revert w; induction elems as [|x rest IH]; intros w; simpl.
  - intros [= <-] [].
  - destruct (ToString h x) as [sx| | |] eqn:Hx; simpl; try discriminate.
    destruct (map_String h rest) as [wr| | |]; simpl; try discriminate.
    intros [= <-] [<-|Hin]; [eauto|].
    destruct (IH wr eq_refl Hin) as (m & Hm & Hs); eauto.
Qed.

(** Strings convert to themselves, so a whitelist of strings is the list. *)
Lemma map_String_strings (h : host) (l : list jsstring) :
  map_String h (map VStr l) = Normal l.
Proof. induction l as [|s l IH]; simpl; [reflexivity|]. now rewrite IH. Qed.

Lemma Set_has_In (members : list jsstring) (v : value) :
  Set_has members v = true <-> exists s, v = VStr s /\ In s members.
Proof.
  split.
  - destruct v; simpl; try discriminate. intros H.
    apply existsb_exists in H as (m & Hin & Heq).
    apply str_eqb_eq in Heq; subst; eauto.
  - intros (s & -> & Hin). simpl. apply existsb_exists.
    exists s; split; [exact Hin | apply str_eqb_refl].
Qed.

End JSFacts.

(** ** Field extraction *)

Module SecretExtraction.

Import JS JSFacts Variant2 Statements.

Lemma candidate_is_spec_candidate (body : value) :
  (if isArray body && negb (Nat.eqb (length_of body) 0)
   then get body (str "0") else body) = spec_candidate body.
Proof.
  destruct body as [| | | | |[|x rest] named|]; reflexivity.
Qed.

Lemma own_property_truthy (c : value) (f : jsstring) :
  hasOwnProperty c f = true -> truthy c = true.
Proof.
  destruct c as [| | | |[|x s]| |]; simpl; try discriminate; reflexivity.
Qed.

Lemma loop_test_is_spec (c : value) (f : jsstring) :
  truthy c && hasOwnProperty c f && truthy (get c f) = spec_present_truthy c f.
Proof.
  unfold spec_present_truthy.
  destruct (hasOwnProperty c f) eqn:Hown.
  - now rewrite (own_property_truthy c f Hown).
  - now rewrite andb_false_r.
Qed.

Lemma scan_fields_hit (h : host) (c : value) (pre post : list jsstring) (f : jsstring) :
  (forall g, In g pre -> spec_present_truthy c g = false) ->
  spec_present_truthy c f = true ->
  scan_fields h c (pre ++ f :: post)
  = Some (rbind (ToString h (get c f)) (fun s => Normal (VStr (trim s)))).
Proof.
  intros Hpre Hf. induction pre as [|g pre IH]; simpl.
  - now rewrite loop_test_is_spec, Hf.
  - rewrite loop_test_is_spec, (Hpre g (or_introl eq_refl)).
    apply IH. intros g' Hg'. apply Hpre. now right.
Qed.

Lemma scan_fields_miss (h : host) (c : value) (fields : list jsstring) :
  (forall g, In g fields -> spec_present_truthy c g = false) ->
  scan_fields h c fields = None.
Proof.
  induction fields as [|g fields IH]; intros Hall; simpl; [reflexivity|].
  rewrite loop_test_is_spec, (Hall g (or_introl eq_refl)).
  apply IH. intros g' Hg'. apply Hall. now right.
Qed.

Lemma scan_keys_step (c : value) (k : jsstring) (rest : list jsstring) :
  scan_keys c (k :: rest)
  = if spec_looks_like_secret (get c k)
    then Some (VStr (trim (Service.string_of (get c k))))
    else scan_keys c rest.
Proof.
  simpl. destruct (get c k); simpl; reflexivity.
Qed.

Lemma scan_keys_hit (c : value) (pre post : list jsstring) (k : jsstring) (s : jsstring) :
  (forall k', In k' pre -> spec_looks_like_secret (get c k') = false) ->
  get c k = VStr s -> 20 < List.length s ->
  scan_keys c (pre ++ k :: post) = Some (VStr (trim s)).
Proof.
  intros Hpre Hk Hlen. induction pre as [|k' pre IH].
  - cbn [app]. rewrite scan_keys_step, Hk. simpl.
    apply Nat.ltb_lt in Hlen. now rewrite Hlen.
  - cbn [app]. rewrite scan_keys_step, (Hpre k' (or_introl eq_refl)).
    apply IH. intros k'' Hk''. apply Hpre. now right.
Qed.

Lemma scan_keys_miss (c : value) (keys : list jsstring) :
  (forall k, In k keys -> spec_looks_like_secret (get c k) = false) ->
  scan_keys c keys = None.
Proof.
  induction keys as [|k keys IH]; intros Hall; [reflexivity|].
  rewrite scan_keys_step, (Hall k (or_introl eq_refl)).
  apply IH. intros k' Hk'. apply Hall. now right.
Qed.

(** Only an object or an array has a field that looks like a secret: the
    fields of a string are its code units. *)
Lemma secret_field_object (c : value) (k : jsstring) :
  spec_looks_like_secret (get c k) = true -> truthy c && is_object c = true.
Proof.
  destruct c as [| | | |s| |]; simpl; try discriminate; try reflexivity.
  destruct (find_index k 0 s); discriminate.
Qed.

(** A falsy body has no field at all. *)
Lemma falsy_body_fields (body : value) (k : jsstring) :
  truthy body = false ->
  spec_candidate body = body
  /\ hasOwnProperty body k = false
  /\ spec_looks_like_secret (get body k) = false.
Proof.
  destruct body as [| |b|n|[|x s]| |]; simpl; try discriminate; auto.
Qed.

(** C1, amended: the candidate is the first element of a non-empty array and
    the body otherwise.  The names api_key, apikey, key, token, value, secret
    and apiKey are scanned in that order, and the first present, truthy one
    gives the result: its value converted to a string and trimmed (the
    exception of the conversion, where an object cannot be converted).  When
    no name matches, the first field of the candidate, in [Object.keys]
    order, that is a string longer than 20 gives the result, trimmed.  When
    neither rule applies the result is [null]. *)
Theorem extractKeyFromBody_rules (h : host) (body : value) :
  let c := spec_candidate body in
  (forall pre f post,
      possibleFields = pre ++ f :: post ->
      (forall g, In g pre -> spec_present_truthy c g = false) ->
      spec_present_truthy c f = true ->
      extractKeyFromBody h body
      = rbind (ToString h (get c f)) (fun s => Normal (VStr (trim s))))
  /\ (forall pre k post s,
      (forall g, In g possibleFields -> spec_present_truthy c g = false) ->
      Object_keys c = pre ++ k :: post ->
      (forall k', In k' pre -> spec_looks_like_secret (get c k') = false) ->
      get c k = VStr s -> 20 < List.length s ->
      extractKeyFromBody h body = Normal (VStr (trim s)))
  /\ ((forall g, In g possibleFields -> spec_present_truthy c g = false) ->
      (forall k, In k (Object_keys c) -> spec_looks_like_secret (get c k) = false) ->
      extractKeyFromBody h body = Normal VNull).
Proof.
  intros c. unfold extractKeyFromBody.
  rewrite candidate_is_spec_candidate. fold c.
  destruct (truthy body) eqn:Hbody; cbn [negb].
  - repeat split.
    + intros pre f post Hfields Hpre Hf.
      rewrite Hfields, (scan_fields_hit h c pre post f Hpre Hf). reflexivity.
    + intros pre k post s Hnone Hkeys Hpre Hk Hlen.
      rewrite (scan_fields_miss h c possibleFields Hnone).
      assert (Hobj : truthy c && is_object c = true).
      { apply (secret_field_object c k). rewrite Hk. simpl.
        now apply Nat.ltb_lt. }
      rewrite Hobj, Hkeys, (scan_keys_hit c pre post k s Hpre Hk Hlen).
      reflexivity.
    + intros Hnone Hkeys.
      rewrite (scan_fields_miss h c possibleFields Hnone).
      destruct (truthy c && is_object c); [|reflexivity].
      now rewrite (scan_keys_miss c (Object_keys c) Hkeys).
  - assert (Hc : c = body) by (apply (falsy_body_fields body [] Hbody)).
    split; [|split; [|reflexivity]].
    + intros pre f post _ _ Hf. exfalso.
      unfold spec_present_truthy in Hf. rewrite Hc in Hf.
      destruct (falsy_body_fields body f Hbody) as (_ & Hown & _).
      rewrite Hown in Hf. discriminate.
    + intros pre k post s _ _ _ Hk Hlen. exfalso.
      destruct (falsy_body_fields body k Hbody) as (_ & _ & Hsec).
      rewrite Hc in Hk. rewrite Hk in Hsec. simpl in Hsec.
      apply Nat.ltb_lt in Hlen. congruence.
Qed.

(** The three rules at work: a named field in the first element of an
    array, a long string under an unlisted name, and neither. *)
Lemma extractKeyFromBody_rules_witness :
  extractKeyFromBody (runtime [] [])
    (VArr [VObj [(str "id", VStr (str "1"));
                 (str "api_key", VStr (str "  sk-live-1 "))]] [])
  = Normal (VStr (str "sk-live-1"))
  /\ extractKeyFromBody (runtime [] [])
       (VObj [(str "id", VStr (str "7"));
              (str "note", VStr (str " 0123456789abcdefghijklmnop"))])
     = Normal (VStr (str "0123456789abcdefghijklmnop"))
  /\ extractKeyFromBody (runtime [] []) (VObj [(str "id", VStr (str "7"))])
     = Normal VNull.
Proof.
  split; [|split].
  - apply (proj1 (extractKeyFromBody_rules (runtime [] [])
             (VArr [VObj [(str "id", VStr (str "1"));
                          (str "api_key", VStr (str "  sk-live-1 "))]] []))
             [] (str "api_key")
             [str "apikey"; str "key"; str "token"; str "value";
              str "secret"; str "apiKey"] eq_refl).
    + intros g [].
    + reflexivity.
  - apply (proj1 (proj2 (extractKeyFromBody_rules (runtime [] [])
             (VObj [(str "id", VStr (str "7"));
                    (str "note", VStr (str " 0123456789abcdefghijklmnop"))])))
             [str "id"] (str "note") [] (str " 0123456789abcdefghijklmnop")).
    + intros g Hg. repeat (destruct Hg as [<-|Hg]; [reflexivity|]). destruct Hg.
    + reflexivity.
    + intros k [<-|[]]. reflexivity.
    + reflexivity.
    + simpl. lia.
  - apply (proj2 (proj2 (extractKeyFromBody_rules (runtime [] [])
             (VObj [(str "id", VStr (str "7"))])))).
    + intros g Hg. repeat (destruct Hg as [<-|Hg]; [reflexivity|]). destruct Hg.
    + intros k [<-|[]]. reflexivity.
Defined.

(** C1 as stated fails: the body [{"apiKey": "abc"}] has none of the six
    listed names and no string longer than 20, and the result is not
    [null]. *)
Lemma extractKeyFromBody_seventh_name :
  let body := VObj [(str "apiKey", VStr (str "abc"))] in
  existsb (spec_present_truthy (spec_candidate body)) spec_fields = false
  /\ existsb (fun k => spec_looks_like_secret (get (spec_candidate body) k))
            (Object_keys (spec_candidate body)) = false
  /\ extractKeyFromBody (runtime [] []) body = Normal (VStr (str "abc")).
Proof. repeat split. Qed.

End SecretExtraction.

(** ** The resolver and the bootstrap *)

Module Bootstrap.

Import JS JS.Notations JSFacts Variant2 Statements.

Lemma advance_nothing (p : process) : advance p 0 [] = p.
Proof. destruct p. unfold advance. simpl. now rewrite app_nil_r. Qed.

Lemma advance_advance (p : process) (n m : nat) (es fs : list event) :
  advance (advance p n es) m fs = advance p (n + m) (es ++ fs).
Proof.
  unfold advance. simpl. rewrite <- app_assoc. f_equal. lia.
Qed.

Lemma scan_fields_result (h : host) (c : value) (fields : list jsstring) (r : result value) :
  scan_fields h c fields = Some r ->
  (exists e, r = Throw e) \/ (exists s, r = Normal (VStr s)).
Proof.
  induction fields as [|f fields IH]; simpl; [discriminate|].
  destruct (truthy c && hasOwnProperty c f && truthy (get c f)); [|exact IH].
  intros [= <-].
  pose proof (ToString_settles h (get c f)) as Hs.
  destruct (ToString h (get c f)); simpl in *; try contradiction; eauto.
Qed.

Lemma scan_keys_result (c : value) (keys : list jsstring) (key : value) :
  scan_keys c keys = Some key -> exists s, key = VStr s.
Proof.
  induction keys as [|k keys IH]; simpl; [discriminate|].
  destruct (get c k); try exact IH.
  destruct (Nat.ltb 20 (List.length s)); [|exact IH].
  intros [= <-]. eauto.
Qed.

(** The extraction ends in [null], in a string, or in the exception of a
    conversion. *)
Lemma extractKeyFromBody_result (h : host) (body : value) :
  (exists e, extractKeyFromBody h body = Throw e)
  \/ extractKeyFromBody h body = Normal VNull
  \/ (exists s, extractKeyFromBody h body = Normal (VStr s)).
Proof.
  unfold extractKeyFromBody.
  destruct (negb (truthy body)); [auto|].
  set (c := if isArray body && negb (Nat.eqb (length_of body) 0)
            then get body (str "0") else body).
  destruct (scan_fields h c possibleFields) as [r|] eqn:Hf.
  - destruct (scan_fields_result h c possibleFields r Hf) as [[e ->]|[s ->]]; eauto.
  - destruct (truthy c && is_object c); [|auto].
    destruct (scan_keys c (Object_keys c)) as [key|] eqn:Hk; [|auto].
    destruct (scan_keys_result c (Object_keys c) key Hk) as [s ->]. eauto.
Qed.

Lemma truthy_string (s : jsstring) : truthy (VStr s) = true <-> s <> [].
Proof. destruct s; simpl; split; congruence. Qed.

Lemma turn_outcome_key (h : host) (answer : reply fetch_response) (key : value) :
  turn_outcome h answer = inl key -> exists s, key = VStr s /\ s <> [].
Proof.
  destruct answer as [res|e]; simpl; [|discriminate].
  destruct (res_ok res); [|discriminate].
  destruct (res_json res) as [body|e]; [|discriminate].
  destruct (extractKeyFromBody_result h body) as [[e ->]|[->|[s ->]]];
    simpl; try discriminate.
  destruct s as [|x s]; simpl; [discriminate|].
  intros [= <-]. exists (x :: s). split; [reflexivity | discriminate].
Qed.

Lemma turn_outcome_fails (h : host) (answer : reply fetch_response) :
  spec_fails h answer -> exists err, turn_outcome h answer = inr err.
Proof.
  intros [e|res Hok|res e Hjson|res body Hjson Hkey]; simpl; eauto.
  - rewrite Hok. eauto.
  - destruct (res_ok res); [|eauto]. rewrite Hjson. eauto.
  - destruct (res_ok res); [|eauto]. rewrite Hjson.
    destruct (extractKeyFromBody h body) as [key| | |] eqn:Hx; eauto.
    rewrite (Hkey key eq_refl). eauto.
Qed.

(** One turn of the loop, computed from the answer of the endpoint. *)
Lemma attempt_once_outcome (h : host) (maxAttempts delayMs attempt : Z) (p : process) :
  attempt_once h maxAttempts delayMs attempt p
  = match turn_outcome h (remote p (sent p)) with
    | inl key =>
        (Normal (Some key),
         advance p 1 [Fetched MOCKAPI_URL (str "GET") 8000])
    | inr err =>
        (Normal None,
         advance p 1
           ([Fetched MOCKAPI_URL (str "GET") 8000;
             WarnAttemptFailed attempt err]
            ++ if Z.ltb attempt maxAttempts then [Waited delayMs] else []))
    end.
Proof.
  unfold attempt_once, try_catch, bind, fetchWithTimeout, try_catch, turn_outcome,
    advance, wait, emit, lift, ret, throw.
  cbn [sent remote env_OPENAI_API_KEY env_PORT OPENAI_API_KEY KEY_SOURCE trace].
  destruct (remote p (sent p)) as [res|e]; cbn [await ret throw].
  - destruct (res_ok res); cbn [negb].
    + destruct (res_json res) as [body|e]; cbn [await ret throw].
      * pose proof (extractKeyFromBody_result h body) as Hr.
        destruct (extractKeyFromBody h body) as [key|e| |] eqn:Hx.
        -- destruct (truthy key); [reflexivity|].
           destruct (Z.ltb attempt maxAttempts); cbn;
             rewrite <- ?app_assoc; reflexivity.
        -- destruct (Z.ltb attempt maxAttempts); cbn;
             rewrite <- ?app_assoc; reflexivity.
        -- exfalso. destruct Hr as [[e He]|[He|[s He]]]; discriminate.
        -- exfalso. destruct Hr as [[e He]|[He|[s He]]]; discriminate.
      * destruct (Z.ltb attempt maxAttempts); cbn;
          rewrite <- ?app_assoc; reflexivity.
    + destruct (Z.ltb attempt maxAttempts); cbn;
        rewrite <- ?app_assoc; reflexivity.
  - destruct (Z.ltb attempt maxAttempts); cbn;
      rewrite <- ?app_assoc; reflexivity.
Qed.

Local Open Scope Z_scope.

Section Resolver.

Variables (h : host) (maxAttempts delayMs : Z).

Lemma attempts_from_all_fail (fuel : nat) :
  forall (attempt : Z) (p : process),
    Z.of_nat fuel = maxAttempts - attempt + 1 ->
    (forall i, (i < fuel)%nat -> spec_fails h (remote p (i + sent p)%nat)) ->
    exists es,
      attempts_from h maxAttempts delayMs fuel attempt p
      = (Normal VNull, advance p fuel es)
      /\ filter is_request_or_wait es = spec_schedule delayMs fuel.
Proof.
  induction fuel as [|fuel IH]; intros attempt p Hfuel Hfail.
  - exists []. cbn [attempts_from].
    replace (Z.leb attempt maxAttempts) with false
      by (symmetry; apply Z.leb_gt; lia).
    unfold ret. now rewrite advance_nothing.
  - cbn [attempts_from].
    replace (Z.leb attempt maxAttempts) with true
      by (symmetry; apply Z.leb_le; lia).
    unfold bind at 1. rewrite attempt_once_outcome.
    destruct (turn_outcome_fails h _ (Hfail 0%nat (Nat.lt_0_succ fuel))) as [err Herr].
    cbn [Nat.add] in Herr. rewrite Herr.
    set (es1 := [Fetched MOCKAPI_URL (str "GET") 8000;
                 WarnAttemptFailed attempt err]
                ++ if Z.ltb attempt maxAttempts then [Waited delayMs] else []).
    destruct (IH (attempt + 1) (advance p 1 es1)) as (es' & Hrun & Hio).
    + lia.
    + intros i Hi. cbn [advance remote sent].
      replace (i + (1 + sent p))%nat with (S i + sent p)%nat by lia.
      apply Hfail. lia.
    + exists (es1 ++ es'). rewrite Hrun, advance_advance. split; [reflexivity|].
      rewrite filter_app, Hio. subst es1. cbn [spec_schedule].
      destruct fuel as [|fuel'].
      * replace (Z.ltb attempt maxAttempts) with false
          by (symmetry; apply Z.ltb_ge; lia).
        reflexivity.
      * replace (Z.ltb attempt maxAttempts) with true
          by (symmetry; apply Z.ltb_lt; lia).
        reflexivity.
Qed.

(** The loop never runs out of turns when it is given one per attempt left,
    and it ends in [null] or in a string that is not empty. *)
Lemma attempts_from_result (fuel : nat) :
  forall (attempt : Z) (p : process),
    maxAttempts - attempt + 1 <= Z.of_nat fuel ->
    exists key n es,
      attempts_from h maxAttempts delayMs fuel attempt p
      = (Normal key, advance p n es)
      /\ (key = VNull \/ exists s, key = VStr s /\ s <> []).
Proof.
  induction fuel as [|fuel IH]; intros attempt p Hfuel.
  - exists VNull, 0%nat, []. cbn [attempts_from].
    replace (Z.leb attempt maxAttempts) with false
      by (symmetry; apply Z.leb_gt; lia).
    unfold ret. rewrite advance_nothing. auto.
  - cbn [attempts_from].
    destruct (Z.leb attempt maxAttempts) eqn:Hle.
    + unfold bind at 1. rewrite attempt_once_outcome.
      destruct (turn_outcome h (remote p (sent p))) as [key|err] eqn:Hs.
      * exists key, 1%nat, [Fetched MOCKAPI_URL (str "GET") 8000].
        split; [reflexivity|]. right. exact (turn_outcome_key h _ key Hs).
      * match goal with |- context [advance p 1 ?es] => set (es1 := es) end.
        destruct (IH (attempt + 1) (advance p 1 es1)) as (key & n & es & Hrun & Hkey);
          [lia|].
        exists key, (1 + n)%nat, (es1 ++ es).
        now rewrite Hrun, advance_advance.
    + exists VNull, 0%nat, []. unfold ret. rewrite advance_nothing. auto.
Qed.

End Resolver.

(** C2: when every attempt fails, the resolver sends one request per attempt,
    [maxAttempts] in all, one after the other with the delay between two of
    them, and returns [null]; it raises nothing. *)
Theorem loadKeyFromMockAPI_exhausted (h : host) (maxAttempts delayMs : Z) (p : process) :
  1 <= maxAttempts ->
  (forall i, (i < Z.to_nat maxAttempts)%nat -> spec_fails h (remote p (i + sent p)%nat)) ->
  exists p' es,
    loadKeyFromMockAPI h maxAttempts delayMs p = (Normal VNull, p')
    /\ Z.of_nat (sent p') = Z.of_nat (sent p) + maxAttempts
    /\ trace p' = trace p ++ es
    /\ filter is_request_or_wait es = spec_schedule delayMs (Z.to_nat maxAttempts).
Proof.
  intros Hmax Hfail.
  destruct (attempts_from_all_fail h maxAttempts delayMs (Z.to_nat maxAttempts) 1 p)
    as (es & Hrun & Hio); [lia | exact Hfail |].
  exists (advance p (Z.to_nat maxAttempts) es), es.
  repeat split; [exact Hrun | cbn [advance sent]; lia | exact Hio].
Qed.

Lemma loadKeyFromMockAPI_exhausted_witness :
  exists p' es,
    loadKeyFromMockAPI (runtime [] []) 3 1500
      (start failing_endpoint None None) = (Normal VNull, p')
    /\ Z.of_nat (sent p') = Z.of_nat 0 + 3
    /\ trace p' = [] ++ es
    /\ filter is_request_or_wait es = spec_schedule 1500 3.
Proof.
  apply (loadKeyFromMockAPI_exhausted (runtime [] []) 3 1500
           (start failing_endpoint None None)).
  - lia.
  - intros i Hi. destruct i as [|[|i]].
    + apply fails_network.
    + apply fails_status. reflexivity.
    + apply fails_no_key with (body := VObj [(str "id", VStr (str "1"))]).
      * reflexivity.
      * intros key [= <-]. reflexivity.
Defined.

(** [initKey] and [run], computed from what the resolver returned. *)
Lemma initKey_after_resolver (h : host) (p p1 : process) (key : value) :
  loadKeyFromMockAPI h 3 1500 p = (Normal key, p1) ->
  initKey h p
  = if truthy key then
      (Normal tt,
       advance (install p1 key (VStr (str "mockapi"))) 0 [InfoKeyFromMockAPI])
    else if truthy (env_value (env_OPENAI_API_KEY p1)) then
      (Normal tt,
       advance (install p1 (env_value (env_OPENAI_API_KEY p1)) (VStr (str "env")))
               0 [WarnNoKeyFromMockAPI; InfoKeyFromEnv])
    else
      (Exit 1, advance p1 0 [WarnNoKeyFromMockAPI; FatalNoKey]).
Proof.
  intros Hload. unfold initKey, bind, try_catch. rewrite Hload.
  destruct (truthy key); [reflexivity|].
  cbn. destruct (truthy (env_value (env_OPENAI_API_KEY p1)));
    cbn; unfold advance, install; cbn; rewrite <- ?app_assoc; reflexivity.
Qed.

Lemma run_after_initKey (h : host) (p p' : process) :
  initKey h p = (Normal tt, p') -> run h p = after_initKey h p'.
Proof.
  intros Hinit. unfold run, main, try_catch, bind. rewrite Hinit.
  unfold after_initKey, emit, await.
  cbn [OPENAI_API_KEY PORT env_PORT remote env_OPENAI_API_KEY sent KEY_SOURCE trace].
  change (PORT {| remote := remote p'; env_OPENAI_API_KEY := env_OPENAI_API_KEY p';
                  env_PORT := env_PORT p'; sent := sent p';
                  OPENAI_API_KEY := OPENAI_API_KEY p'; KEY_SOURCE := KEY_SOURCE p';
                  trace := trace p' ++ [ClientCreated (OPENAI_API_KEY p')] |})
    with (PORT p').
  destruct (app_listen h (PORT p')) as [[]|e];
    cbn; unfold advance; cbn; rewrite <- ?app_assoc; reflexivity.
Qed.

Lemma run_after_resolver (h : host) (p p1 : process) (key : value) :
  loadKeyFromMockAPI h 3 1500 p = (Normal key, p1) ->
  run h p
  = if truthy key then
      after_initKey h
        (advance (install p1 key (VStr (str "mockapi"))) 0 [InfoKeyFromMockAPI])
    else if truthy (env_value (env_OPENAI_API_KEY p1)) then
      after_initKey h
        (advance (install p1 (env_value (env_OPENAI_API_KEY p1)) (VStr (str "env")))
                 0 [WarnNoKeyFromMockAPI; InfoKeyFromEnv])
    else
      (Exit 1, advance p1 0 [WarnNoKeyFromMockAPI; FatalNoKey]).
Proof.
  intros Hload.
  pose proof (initKey_after_resolver h p p1 key Hload) as Hinit.
  destruct (truthy key);
    [exact (run_after_initKey h p _ Hinit)|].
  destruct (truthy (env_value (env_OPENAI_API_KEY p1)));
    [exact (run_after_initKey h p _ Hinit)|].
  unfold run, main, try_catch, bind. rewrite Hinit. reflexivity.
Qed.

(** The resolver leaves the environment and the two variables as they are. *)
Lemma resolver_total (h : host) (maxAttempts delayMs : Z) (p : process) :
  exists key n es,
    loadKeyFromMockAPI h maxAttempts delayMs p = (Normal key, advance p n es)
    /\ (key = VNull \/ exists s, key = VStr s /\ s <> []).
Proof.
  apply (attempts_from_result h maxAttempts delayMs (Z.to_nat maxAttempts) 1 p).
  lia.
Qed.

(** C10: whatever the endpoint answers and however many attempts are allowed,
    the resolver returns [null] or a string that is not empty; so when the
    bootstrap tags the credential as coming from the remote source, the
    credential it installed is not the empty string. *)
Theorem resolver_never_empty (h : host) (maxAttempts delayMs : Z) (p : process) :
  (exists key p',
      loadKeyFromMockAPI h maxAttempts delayMs p = (Normal key, p')
      /\ (key = VNull \/ exists s, key = VStr s /\ s <> []))
  /\ (exists p', initKey h p = (Exit 1, p')
      \/ (initKey h p = (Normal tt, p') /\ KEY_SOURCE p' = VStr (str "env"))
      \/ (initKey h p = (Normal tt, p') /\ KEY_SOURCE p' = VStr (str "mockapi")
          /\ exists s, OPENAI_API_KEY p' = VStr s /\ s <> [])).
Proof.
  split.
  - destruct (resolver_total h maxAttempts delayMs p)
      as (key & n & es & Hrun & Hkey).
    exists key, (advance p n es). split; [exact Hrun | exact Hkey].
  - destruct (resolver_total h 3 1500 p) as (key & n & es & Hrun & Hkey).
    rewrite (initKey_after_resolver h p _ key Hrun).
    destruct Hkey as [->|(s & -> & Hs)].
    + cbn [truthy]. destruct (truthy (env_value (env_OPENAI_API_KEY (advance p n es)))).
      * eexists. right; left. split; reflexivity.
      * eexists. left. reflexivity.
    + rewrite (proj2 (truthy_string s) Hs).
      eexists. right; right. split; [reflexivity|]. split; [reflexivity|].
      exists s. split; [reflexivity | exact Hs].
Qed.

(** A key of white space is extracted as the empty string, and the resolver
    counts the attempt as failed: three requests, then [null]. *)
Example resolver_rejects_blank_key :
  extractKeyFromBody (runtime [] []) (VObj [(str "key", VStr (str "   "))])
  = Normal (VStr [])
  /\ fst (loadKeyFromMockAPI (runtime [] []) 3 1500 (start blank_endpoint None None))
     = Normal VNull
  /\ sent (snd (loadKeyFromMockAPI (runtime [] []) 3 1500
                  (start blank_endpoint None None))) = 3%nat.
Proof. repeat split. Qed.

(** C3: when the resolver returns a credential, [initKey] installs it and
    tags it as remote; otherwise, when the fallback of the environment is
    there (set, and not empty), [initKey] installs that and tags it as
    local; otherwise the process exits with status 1, in [initKey] and so in
    the whole bootstrap.  When [initKey] returns, the client is built from
    the credential installed and [app.listen] is called: the bootstrap is
    over when the call returns, and exits with status 1 when it raises.  So
    the process goes on to serve only with a credential installed. *)
Theorem bootstrap_order (h : host) (p p1 : process) (key : value) :
  loadKeyFromMockAPI h 3 1500 p = (Normal key, p1) ->
  let fallback := env_value (env_OPENAI_API_KEY p) in
  (truthy key = true ->
     exists p', initKey h p = (Normal tt, p')
       /\ OPENAI_API_KEY p' = key /\ KEY_SOURCE p' = VStr (str "mockapi")
       /\ trace p' = trace p1 ++ [InfoKeyFromMockAPI])
  /\ (truthy key = false -> truthy fallback = true ->
     exists p', initKey h p = (Normal tt, p')
       /\ OPENAI_API_KEY p' = fallback /\ KEY_SOURCE p' = VStr (str "env")
       /\ trace p' = trace p1 ++ [WarnNoKeyFromMockAPI; InfoKeyFromEnv])
  /\ (truthy key = false -> truthy fallback = false ->
     exists p', initKey h p = (Exit 1, p') /\ run h p = (Exit 1, p')
       /\ trace p' = trace p1 ++ [WarnNoKeyFromMockAPI; FatalNoKey])
  /\ (forall p', initKey h p = (Normal tt, p') ->
     run h p
     = match app_listen h (PORT p) with
       | Resolved _ =>
           (Normal tt,
            advance p' 0 [ClientCreated (OPENAI_API_KEY p');
                          ListenReturned (PORT p)])
       | Rejected e =>
           (Exit 1,
            advance p' 0 [ClientCreated (OPENAI_API_KEY p'); FatalStartup e])
       end)
  /\ (serving (run h p) = true ->
     truthy (OPENAI_API_KEY (snd (run h p))) = true).
Proof.
  intros Hload fallback.
  destruct (resolver_total h 3 1500 p) as (key' & n & es & Hrun & _).
  rewrite Hload in Hrun. injection Hrun as <- ->.
  assert (Hfb : env_value (env_OPENAI_API_KEY (advance p n es)) = fallback)
    by reflexivity.
  pose proof (initKey_after_resolver h p _ key Hload) as Hinit.
  pose proof (run_after_resolver h p _ key Hload) as Hmain.
  rewrite Hfb in Hinit, Hmain.
  split; [|split; [|split; [|split]]].
  - intros Hk. rewrite Hk in Hinit. eexists. split; [exact Hinit|].
    repeat split.
  - intros Hk Hf. rewrite Hk, Hf in Hinit. eexists. split; [exact Hinit|].
    repeat split.
  - intros Hk Hf. rewrite Hk, Hf in Hinit, Hmain. eexists.
    split; [exact Hinit|]. split; [exact Hmain | reflexivity].
  - intros p' Hp'. rewrite (run_after_initKey h p p' Hp').
    unfold after_initKey.
    replace (PORT p') with (PORT p); [reflexivity|].
    rewrite Hinit in Hp'.
    destruct (truthy key); [injection Hp' as <-; reflexivity|].
    destruct (truthy fallback); [injection Hp' as <-; reflexivity|].
    discriminate.
  - rewrite Hmain. unfold after_initKey.
    destruct (truthy key) eqn:Hk.
    + destruct (app_listen h _) as [[]|e]; [intros _; exact Hk | discriminate].
    + destruct (truthy fallback) eqn:Hf; [|discriminate].
      destruct (app_listen h _) as [[]|e]; [intros _; exact Hf | discriminate].
Qed.

(** The ways of the bootstrap: a key from the endpoint; no key and a
    fallback; neither; and a key from the endpoint with a port that
    [app.listen] refuses. *)
Lemma bootstrap_order_witness :
  (exists p', initKey (runtime [] [])
                  (start answering_endpoint (Some (str "sk-env")) None)
              = (Normal tt, p')
     /\ OPENAI_API_KEY p' = VStr (str "sk-remote")
     /\ KEY_SOURCE p' = VStr (str "mockapi"))
  /\ (exists p', initKey (runtime [] [])
                     (start failing_endpoint (Some (str "sk-env")) None)
                 = (Normal tt, p')
     /\ OPENAI_API_KEY p' = VStr (str "sk-env")
     /\ KEY_SOURCE p' = VStr (str "env"))
  /\ (exists p', run (runtime [] [])
                     (start failing_endpoint None None)
                 = (Exit 1, p'))
  /\ (exists p',
        initKey (runtime [] [])
          (start answering_endpoint None (Some (str "99999")))
        = (Normal tt, p')
        /\ OPENAI_API_KEY p' = VStr (str "sk-remote")
        /\ run (runtime [] [])
             (start answering_endpoint None (Some (str "99999")))
           = (Exit 1,
              advance p' 0
                [ClientCreated (VStr (str "sk-remote"));
                 FatalStartup (External (str "ERR_SOCKET_BAD_PORT"))])).
Proof.
  split; [|split; [|split]].
  - destruct (bootstrap_order (runtime [] [])
                (start answering_endpoint (Some (str "sk-env")) None)
                (snd (loadKeyFromMockAPI (runtime [] []) 3 1500
                        (start answering_endpoint (Some (str "sk-env")) None)))
                (VStr (str "sk-remote"))) as (A & _);
      [vm_compute; reflexivity|].
    destruct A as (p' & Hrun & Hkey & Hsource & _); [vm_compute; reflexivity|].
    exists p'. repeat split; assumption.
  - destruct (bootstrap_order (runtime [] [])
                (start failing_endpoint (Some (str "sk-env")) None)
                (snd (loadKeyFromMockAPI (runtime [] []) 3 1500
                        (start failing_endpoint (Some (str "sk-env")) None)))
                VNull) as (_ & B & _);
      [vm_compute; reflexivity|].
    destruct B as (p' & Hrun & Hkey & Hsource & _); try (vm_compute; reflexivity).
    exists p'. repeat split; assumption.
  - destruct (bootstrap_order (runtime [] [])
                (start failing_endpoint None None)
                (snd (loadKeyFromMockAPI (runtime [] []) 3 1500
                        (start failing_endpoint None None)))
                VNull) as (_ & _ & C & _);
      [vm_compute; reflexivity|].
    destruct C as (p' & _ & Hrun & _); try (vm_compute; reflexivity).
    exists p'. exact Hrun.
  - destruct (bootstrap_order (runtime [] [])
                (start answering_endpoint None (Some (str "99999")))
                (snd (loadKeyFromMockAPI (runtime [] []) 3 1500
                        (start answering_endpoint None (Some (str "99999")))))
                (VStr (str "sk-remote"))) as (A & _ & _ & D & _);
      [vm_compute; reflexivity|].
    destruct A as (p' & Hinit & Hkey & _); [vm_compute; reflexivity|].
    exists p'. split; [exact Hinit|]. split; [exact Hkey|].
    rewrite (D p' Hinit), Hkey. reflexivity.
Defined.

(** A port that [app.listen] refuses: the key of the endpoint is installed,
    the client is built, and the process exits with status 1, having
    reported the error of the call. *)
Example bootstrap_refused_port :
  run (runtime [] []) (start answering_endpoint None (Some (str "99999")))
  = (Exit 1,
     advance (install (snd (loadKeyFromMockAPI (runtime [] []) 3 1500
                              (start answering_endpoint None
                                 (Some (str "99999")))))
                (VStr (str "sk-remote")) (VStr (str "mockapi")))
       0 [InfoKeyFromMockAPI; ClientCreated (VStr (str "sk-remote"));
          FatalStartup (External (str "ERR_SOCKET_BAD_PORT"))]).
Proof. vm_compute. reflexivity. Qed.

End Bootstrap.

(** ** The routes *)

Module Routes.

Import JS JS.Notations JSFacts Service Statements.

Local Open Scope Z_scope.

Lemma yields_ret {A} (a : A) (Q : A -> Prop) : Q a -> yields (ret a) Q.
Proof. intros H done. exact H. Qed.

Lemma yields_throw {A} (e : error) (Q : A -> Prop) : yields (throw e) Q.
Proof. intros done. exact I. Qed.

Lemma yields_lift {A} (r : result A) (Q : A -> Prop) :
  settles r -> (forall a, r = Normal a -> Q a) -> yields (lift r) Q.
Proof.
  intros Hs HQ done. unfold lift.
  destruct r; simpl in *; auto.
Qed.

Lemma yields_call {A} (e : effect) (answer : list effect -> reply A) :
  yields (call e answer) (fun _ => True).
Proof.
  intros done. unfold call. destruct (answer done); exact I.
Qed.

Lemma yields_bind {A B} (m : handler A) (k : A -> handler B)
    (P : A -> Prop) (Q : B -> Prop) :
  yields m P -> (forall a, P a -> yields (k a) Q) -> yields (bind m k) Q.
Proof.
  intros Hm Hk done. unfold bind. specialize (Hm done).
  destruct (m done) as [[a| | |] done']; try exact Hm.
  exact (Hk a Hm done').
Qed.

(** A [try] block whose [catch] answers 500 always answers. *)
Lemma caught (m : handler response) (Q : response -> Prop) (code : jsstring) :
  yields m Q ->
  forall done, exists resp done',
    try_catch m (fun e => emit (ConsoleError e) ;;;
                          res_json 500 (error_body code)) done
    = (Normal resp, done')
    /\ (Q resp \/ resp = {| status := 500; body := error_body code |}).
Proof.
  intros Hm done. unfold try_catch. specialize (Hm done).
  destruct (m done) as [[resp|e| |] done']; try contradiction.
  - exists resp, done'. auto.
  - eexists _, _. split; [reflexivity|]. right. reflexivity.
Qed.

Lemma bad_request_spec (text commands : value) :
  bad_request text commands = false <-> spec_well_formed text commands.
Proof.
  unfold bad_request, spec_well_formed. split.
  - destruct text; simpl; try discriminate.
    destruct commands as [| | | | |[|x rest] named|]; simpl; try discriminate.
    intros _. split; [eauto | eauto].
  - intros [[s ->] (x & rest & named & ->)]. reflexivity.
Qed.

Lemma yields_try_catch {A} (m : handler A) (handler : error -> handler A)
    (Q : A -> Prop) :
  yields m Q -> (forall e, yields (handler e) Q) -> yields (try_catch m handler) Q.
Proof.
  intros Hm Hh done. unfold try_catch. specialize (Hm done).
  destruct (m done) as [[a|e| |] done']; try exact Hm.
  exact (Hh e done').
Qed.

Ltac settle_step :=
  first
    [ exact I
    | apply ToString_settles
    | apply join_settles
    | apply map_String_settles
    | apply ToNumber_settles
    | apply JSON_parse_settles
    | apply get_strict_settles
    | apply set_settles
    | apply settles_rbind; [settle_step | intros; settle_step] ].

(** One more step of a handler whose steps all end. *)
Ltac yield_step :=
  lazymatch goal with
  | |- yields (bind _ _) _ =>
      apply yields_bind with (P := fun _ => True); [|intros ? _]
  | |- yields (ret _) _ => apply yields_ret
  | |- yields (res_json _ _) _ => apply yields_ret
  | |- yields (throw _) _ => apply yields_throw
  | |- yields (call _ _) _ => apply yields_call
  | |- yields (try_catch _ _) _ => apply yields_try_catch; [|intros ?]
  | |- yields (lift (if ?b then _ else _)) _ => destruct b
  | |- yields (lift (match typeof ?v with _ => _ end)) _ => destruct (typeof v)
  | |- yields (if ?b then _ else _) _ => destruct b
  | |- yields (lift _) _ => apply yields_lift; [settle_step | trivial]
  end.

Lemma intent1_answers (h : host) (pv : provider) (req_body : value) (done : list effect) :
  bad_request (text_of req_body) (commands_of req_body) = false ->
  exists resp done',
    Variant1.intent h pv req_body done = (Normal resp, done')
    /\ (status resp = 200
        \/ resp = {| status := 500; body := error_body (str "intent_failed") |}).
Proof.
  unfold text_of, commands_of, Variant1.intent. intros ->.
  apply caught. repeat yield_step; first [exact I | reflexivity].
Qed.

Lemma intent2_answers (h : host) (pv : provider) (req_body : value) (done : list effect) :
  bad_request (text_of req_body) (commands_of req_body) = false ->
  exists resp done',
    Variant2.intent h pv req_body done = (Normal resp, done')
    /\ (status resp = 200
        \/ resp = {| status := 500; body := error_body (str "intent_failed") |}).
Proof.
  unfold text_of, commands_of, Variant2.intent. intros ->.
  apply caught. repeat yield_step; first [exact I | reflexivity].
Qed.

Lemma intent1_rejects (h : host) (pv : provider) (req_body : value) (done : list effect) :
  bad_request (text_of req_body) (commands_of req_body) = true ->
  Variant1.intent h pv req_body done = (Normal bad_request_response, done).
Proof.
  unfold text_of, commands_of, Variant1.intent. intros ->. reflexivity.
Qed.

Lemma intent2_rejects (h : host) (pv : provider) (req_body : value) (done : list effect) :
  bad_request (text_of req_body) (commands_of req_body) = true ->
  Variant2.intent h pv req_body done = (Normal bad_request_response, done).
Proof.
  unfold text_of, commands_of, Variant2.intent. intros ->. reflexivity.
Qed.

Lemma rejected_exactly (text commands : value) (resp : response) :
  (bad_request text commands = true /\ resp = bad_request_response)
  \/ (bad_request text commands = false
      /\ (status resp = 200
          \/ resp = {| status := 500; body := error_body (str "intent_failed") |})) ->
  (resp = bad_request_response <-> ~ spec_well_formed text commands).
Proof.
  intros [[Hbad ->]|[Hbad Hresp]].
  - split; [|reflexivity]. intros _ Hwf.
    apply bad_request_spec in Hwf. congruence.
  - split.
    + intros ->. destruct Hresp as [H|H]; discriminate H.
    + intros Hwf. exfalso. apply Hwf. now apply bad_request_spec.
Qed.

(** C7: in both revisions the intent route answers 400 with [bad_request]
    exactly when [text] is not a string or [commands] is not a non-empty
    array; the empty string is a string, so an empty [text] passes. *)
Theorem bad_request_exactly (h : host) (pv : provider) (req_body : value)
    (done : list effect) :
  (exists resp done',
      Variant1.intent h pv req_body done = (Normal resp, done')
      /\ (resp = bad_request_response
          <-> ~ spec_well_formed (text_of req_body) (commands_of req_body)))
  /\ (exists resp done',
      Variant2.intent h pv req_body done = (Normal resp, done')
      /\ (resp = bad_request_response
          <-> ~ spec_well_formed (text_of req_body) (commands_of req_body)))
  /\ (forall x rest named, spec_well_formed (VStr []) (VArr (x :: rest) named)).
Proof.
  split; [|split].
  - destruct (bad_request (text_of req_body) (commands_of req_body)) eqn:Hbad.
    + exists bad_request_response, done.
      split; [now apply intent1_rejects|]. apply rejected_exactly. auto.
    + destruct (intent1_answers h pv req_body done Hbad) as (resp & done' & Hrun & Hresp).
      exists resp, done'. split; [exact Hrun|]. apply rejected_exactly. auto.
  - destruct (bad_request (text_of req_body) (commands_of req_body)) eqn:Hbad.
    + exists bad_request_response, done.
      split; [now apply intent2_rejects|]. apply rejected_exactly. auto.
    + destruct (intent2_answers h pv req_body done Hbad) as (resp & done' & Hrun & Hresp).
      exists resp, done'. split; [exact Hrun|]. apply rejected_exactly. auto.
  - intros x rest named. split; eauto.
Qed.

(** C9: without a file under [audio], the transcription route answers 400
    with [no_audio], and has done nothing else: no file written, no call to
    the transcription service.  (With a file, the route writes it first, and
    its answer is never [no_audio].)  The route is the same in both
    revisions. *)
Theorem transcribe_without_audio (pv : provider) (done : list effect) :
  transcribe pv None done
  = (Normal {| status := 400; body := error_body (str "no_audio") |}, done)
  /\ (forall buffer, exists resp rest,
        transcribe pv (Some buffer) done
        = (Normal resp, done ++ WroteFile (str "/tmp/input.webm") buffer :: rest)
        /\ (status resp = 200
            \/ resp = {| status := 500;
                         body := error_body (str "transcription_failed") |})).
Proof.
  split; [reflexivity|]. intros buffer.
  unfold transcribe, try_catch, bind, call, lift, emit, res_json, ret.
  destruct (writeFile pv done (str "/tmp/input.webm") buffer) as [[]|e];
    cbn [await ret throw].
  - match goal with
    | |- context [audio_transcriptions_create pv ?d ?r] =>
        destruct (audio_transcriptions_create pv d r) as [transcription|e]
    end; cbn [await ret throw].
    + pose proof (get_strict_settles transcription (str "text")) as Hs.
      destruct (get_strict transcription (str "text")) as [text|e| |];
        try contradiction; rewrite <- !app_assoc; cbn [app].
      * eexists _, _. split; [reflexivity|]. left. reflexivity.
      * eexists _, _. split; [reflexivity|]. right. reflexivity.
    + rewrite <- !app_assoc; cbn [app].
      eexists _, _. split; [reflexivity|]. right. reflexivity.
  - rewrite <- ?app_assoc; cbn [app].
    eexists _, _. split; [reflexivity|]. right. reflexivity.
Qed.

(** *** The intent route after validation *)

Lemma lookup_update (k k' : jsstring) (x : value) (props : list (jsstring * value)) :
  lookup k' (update k x props) = if str_eqb k' k then Some x else lookup k' props.
Proof.
  induction props as [|[k0 v] props IH]; simpl.
  - destruct (str_eqb k' k); reflexivity.
  - destruct (str_eqb k k0) eqn:Hk0; simpl.
    + apply str_eqb_eq in Hk0; subst k0.
      destruct (str_eqb k' k); reflexivity.
    + rewrite IH. destruct (str_eqb k' k0) eqn:Hk'0; [|reflexivity].
      destruct (str_eqb k' k) eqn:Hk'; [|reflexivity].
      apply str_eqb_eq in Hk'0, Hk'. subst.
      rewrite str_eqb_refl in Hk0. discriminate.
Qed.

Lemma get_update (k k' : jsstring) (x : value) (props : list (jsstring * value)) :
  get (VObj (update k x props)) k' = if str_eqb k' k then x else get (VObj props) k'.
Proof.
  cbn [get]. rewrite lookup_update. destruct (str_eqb k' k); reflexivity.
Qed.

Lemma map_String_member (h : host) (elems : list value) (w : list jsstring)
    (m : value) (s : jsstring) :
  map_String h elems = Normal w -> In m elems -> ToString h m = Normal s -> In s w.
Proof.
  revert w; induction elems as [|x rest IH]; intros w; simpl; [intros _ []|].
  destruct (ToString h x) as [sx| | |] eqn:Hx; simpl; try discriminate.
  destruct (map_String h rest) as [wr| | |]; simpl; try discriminate.
  intros [= <-] [->|Hin] Hs.
  - left. congruence.
  - right. exact (IH wr eq_refl Hin Hs).
Qed.

Lemma whitelist_spec (h : host) (elems : list value) (w : list jsstring) (command : value) :
  map_String h elems = Normal w ->
  (Set_has w command = true <-> spec_matches_member h elems command).
Proof.
  intros Hw. rewrite Set_has_In. unfold spec_matches_member. split.
  - intros (s & -> & Hin).
    destruct (map_String_In h elems w s Hw Hin) as (m & Hm & Hs). eauto.
  - intros (s & m & -> & Hm & Hs). exists s. split; [reflexivity|].
    exact (map_String_member h elems w m s Hw Hm Hs).
Qed.

(** Comparisons of two literal keys. *)
Ltac decide_keys :=
  repeat match goal with
  | |- context [str_eqb (str ?a) (str ?b)] =>
      let v := eval vm_compute in (str_eqb (str a) (str b)) in
      change (str_eqb (str a) (str b)) with v
  end; cbv iota.

(** A handler run down to the answer of the provider. *)
Ltac run_to_chat Ht Hc Hne Hj Hchat :=
  unfold text_of, commands_of in Ht, Hc; rewrite Ht, Hc;
  match goal with
  | |- context [bad_request (VStr ?t) (VArr ?e [])] =>
      replace (bad_request (VStr t) (VArr e [])) with false
        by (destruct e; [contradiction | reflexivity])
  end;
  cbn [method_hidden lookup elements string_of]; rewrite Hj;
  unfold try_catch, bind, lift, call; fold only1; fold only2; rewrite Hchat;
  cbn [await ret]; unfold ret.

Ltac read_strictly Hcontent :=
  unfold strict_content in Hcontent;
  repeat match type of Hcontent with
  | rbind (get_strict ?v ?k) _ = _ =>
      destruct (get_strict v k); try discriminate Hcontent;
      cbn [rbind] in Hcontent
  end;
  rewrite Hcontent.

(** The first revision on an object: [source] is set, [confidence] is kept
    when it is a number and [command] when it is a string. *)
Lemma intent1_object (h : host) (pv : provider) (req_body : value)
    (done : list effect) (elems : list value) (chat content : value)
    (props : list (jsstring * value)) :
  answered h pv only1 req_body done elems chat ->
  strict_content chat = Normal content ->
  JSON_parse h content = Normal (VObj props) ->
  exists resp,
    fst (Variant1.intent h pv req_body done) = Normal resp
    /\ status resp = 200
    /\ get (body resp) (str "command")
       = match get (VObj props) (str "command") with
         | VStr s => VStr s
         | _ => VNull
         end
    /\ get (body resp) (str "confidence")
       = match get (VObj props) (str "confidence") with
         | VNum n => VNum n
         | _ => VNum 0.5%float
         end
    /\ get (body resp) (str "source") = VStr (str "openai").
Proof.
  intros (text & listing & Ht & Hc & Hne & Hj & Hchat) Hcontent Hparse.
  unfold Variant1.intent. run_to_chat Ht Hc Hne Hj Hchat.
  read_strictly Hcontent. rewrite Hparse.
  cbn [set]. rewrite !get_update. decide_keys.
  destruct (get (VObj props) (str "confidence")) eqn:Hconf; cbn [typeof];
    rewrite ?get_update; decide_keys;
    destruct (get (VObj props) (str "command")) eqn:Hcmd; cbn [typeof set];
    (eexists; split; [reflexivity|]; cbn [status body];
     rewrite ?get_update; decide_keys; rewrite ?Hconf, ?Hcmd; auto).
Qed.

(** The second revision on what it takes for the output of the model. *)
Lemma intent2_output (h : host) (pv : provider) (req_body : value)
    (done : list effect) (elems : list value) (chat out : value) (number : float) :
  answered h pv only2 req_body done elems chat ->
  match rbind (Variant2.content_or_default chat) (JSON_parse h) with
  | Normal parsed => out = parsed
  | _ => out = VObj []
  end ->
  nullish out = false ->
  ToNumber h (Variant2.field_or out (str "confidence") (VNum 0.5%float))
  = Normal number ->
  exists whitelist,
    map_String h elems = Normal whitelist
    /\ fst (Variant2.intent h pv req_body done)
       = Normal
           {| status := 200;
              body :=
                VObj [(str "command",
                       if Set_has whitelist (get out (str "command"))
                       then get out (str "command") else VNull);
                      (str "confidence",
                       if truthy (VNum number) then VNum number
                       else VNum 0.5%float);
                      (str "source", VStr (str "openai"))] |}.
Proof.
  intros (text & listing & Ht & Hc & Hne & Hj & Hchat) Hout Hnull Hnumber.
  destruct (join_map_String h _ _ _ Hj) as [w Hw]. exists w.
  split; [exact Hw|].
  unfold Variant2.intent. run_to_chat Ht Hc Hne Hj Hchat.
  rewrite Hw.
  assert (Hs : settles (rbind (Variant2.content_or_default chat) (JSON_parse h))).
  { apply settles_rbind; [|intros; settle_step].
    unfold Variant2.content_or_default. settle_step. }
  destruct (rbind (Variant2.content_or_default chat) (JSON_parse h)) as [parsed|e| |];
    try contradiction.
  - subst parsed. rewrite Hnull. cbn [throw]. rewrite Hnumber.
    unfold Variant2.field_or at 1 2.
    destruct (get out (str "command")) as [| | | |s| |]; cbn [Set_has negb];
      try reflexivity.
    destruct (existsb (str_eqb s) w); reflexivity.
  - subst out. cbn in Hnumber |- *. injection Hnumber as <-. reflexivity.
Qed.

Lemma lights_answered (only content : jsstring) :
  answered example_host (answering content) only lights_request []
    [VStr (str "lights_on"); VStr (str "lights_off")] (chat_with content).
Proof.
  exists (str "turn on the light"), (str "lights_on, lights_off").
  repeat split. discriminate.
Qed.

(** *** Whitelist, confidence and unparseable content *)

(** C4, amended: in the second revision the command of the model is in the
    200 response only when it is the string of a member of [commands] (the
    member itself, for a list of strings), and [null] stands for any other;
    the first revision has no list to check against, and passes on any
    command that is a string. *)
Theorem command_whitelist (h : host) (pv : provider) (req_body : value)
    (done : list effect) (elems : list value) (chat : value) :
  (forall out number,
      answered h pv only2 req_body done elems chat ->
      rbind (Variant2.content_or_default chat) (JSON_parse h) = Normal out ->
      nullish out = false ->
      ToNumber h (Variant2.field_or out (str "confidence") (VNum 0.5%float))
      = Normal number ->
      exists resp,
        fst (Variant2.intent h pv req_body done) = Normal resp
        /\ status resp = 200
        /\ (spec_matches_member h elems (get out (str "command")) ->
            get (body resp) (str "command") = get out (str "command"))
        /\ (~ spec_matches_member h elems (get out (str "command")) ->
            get (body resp) (str "command") = VNull))
  /\ (forall content props,
      answered h pv only1 req_body done elems chat ->
      strict_content chat = Normal content ->
      JSON_parse h content = Normal (VObj props) ->
      exists resp,
        fst (Variant1.intent h pv req_body done) = Normal resp
        /\ status resp = 200
        /\ get (body resp) (str "command")
           = match get (VObj props) (str "command") with
             | VStr s => VStr s
             | _ => VNull
             end).
Proof.
  split.
  - intros out number Hans Hout Hnull Hnumber.
    destruct (intent2_output h pv req_body done elems chat out number Hans)
      as (w & Hw & Hrun); [now rewrite Hout | exact Hnull | exact Hnumber |].
    eexists. split; [exact Hrun|]. split; [reflexivity|].
    cbn [body get lookup]. decide_keys.
    pose proof (whitelist_spec h elems w (get out (str "command")) Hw) as Hspec.
    destruct (Set_has w (get out (str "command"))).
    + split; [reflexivity|]. intros Hno. exfalso. apply Hno, Hspec. reflexivity.
    + split; [|reflexivity]. intros Hyes. apply Hspec in Hyes. discriminate.
  - intros content props Hans Hcontent Hparse.
    destruct (intent1_object h pv req_body done elems chat content props
                Hans Hcontent Hparse) as (resp & Hrun & Hstatus & Hcmd & _).
    exists resp. auto.
Qed.

(** For a list of strings, matching a member is being one of the strings. *)
Lemma matches_member_strings (h : host) (names : list jsstring) (command : value) :
  spec_matches_member h (map VStr names) command
  <-> exists s, command = VStr s /\ In s names.
Proof.
  rewrite <- (whitelist_spec h (map VStr names) names command
                (map_String_strings h names)).
  apply Set_has_In.
Qed.

Lemma command_whitelist_witness :
  (exists resp,
      fst (Variant2.intent example_host (answering dim_text) lights_request [])
      = Normal resp
      /\ status resp = 200
      /\ get (body resp) (str "command") = VNull)
  /\ (exists resp,
      fst (Variant2.intent example_host (answering sure_text) lights_request [])
      = Normal resp
      /\ status resp = 200
      /\ get (body resp) (str "command") = VStr (str "lights_on")).
Proof.
  split.
  - destruct (proj1 (command_whitelist example_host (answering dim_text)
                       lights_request []
                       [VStr (str "lights_on"); VStr (str "lights_off")]
                       (chat_with dim_text))
                dim_value 0.5%float (lights_answered only2 dim_text)
                eq_refl eq_refl eq_refl)
      as (resp & Hrun & Hstatus & _ & Hno).
    exists resp. split; [exact Hrun|]. split; [exact Hstatus|].
    apply Hno. intros (s & m & Hs & Hm & Hstr).
    injection Hs as <-.
    destruct Hm as [<-|[<-|[]]]; discriminate Hstr.
  - destruct (proj1 (command_whitelist example_host (answering sure_text)
                       lights_request []
                       [VStr (str "lights_on"); VStr (str "lights_off")]
                       (chat_with sure_text))
                sure_value 0.9%float (lights_answered only2 sure_text)
                eq_refl eq_refl eq_refl)
      as (resp & Hrun & Hstatus & Hyes & _).
    exists resp. split; [exact Hrun|]. split; [exact Hstatus|].
    apply Hyes. exists (str "lights_on"), (VStr (str "lights_on")).
    repeat split. left. reflexivity.
Defined.

(** C4 as stated fails in the first revision: the model answers
    [lights_dim], which is not in the list, and the 200 response carries
    it. *)
Lemma intent1_passes_unlisted_command :
  fst (Variant1.intent example_host (answering dim_text) lights_request [])
  = Normal {| status := 200;
              body := VObj [(str "command", VStr (str "lights_dim"));
                            (str "source", VStr (str "openai"));
                            (str "confidence", VNum 0.5%float)] |}
  /\ Set_has [str "lights_on"; str "lights_off"] (VStr (str "lights_dim")) = false.
Proof. split; reflexivity. Qed.

(** C5, amended: in the second revision the confidence of the response is
    the number the upstream value converts to, when that number is neither
    NaN nor zero, and 0.5 when the upstream value is absent or converts to
    NaN; in the first revision nothing is converted: the upstream value is
    kept when it is a number (zero too), and 0.5 stands for anything else. *)
Theorem confidence_default (h : host) (pv : provider) (req_body : value)
    (done : list effect) (elems : list value) (chat : value) :
  (forall out number,
      answered h pv only2 req_body done elems chat ->
      rbind (Variant2.content_or_default chat) (JSON_parse h) = Normal out ->
      nullish out = false ->
      ToNumber h (Variant2.field_or out (str "confidence") (VNum 0.5%float))
      = Normal number ->
      exists resp,
        fst (Variant2.intent h pv req_body done) = Normal resp
        /\ status resp = 200
        /\ (get out (str "confidence") = VUndefined ->
            get (body resp) (str "confidence") = VNum 0.5%float)
        /\ (PrimFloat.is_nan number = true ->
            get (body resp) (str "confidence") = VNum 0.5%float)
        /\ (PrimFloat.is_nan number = false ->
            PrimFloat.is_zero number = false ->
            get (body resp) (str "confidence") = VNum number))
  /\ (forall content props,
      answered h pv only1 req_body done elems chat ->
      strict_content chat = Normal content ->
      JSON_parse h content = Normal (VObj props) ->
      exists resp,
        fst (Variant1.intent h pv req_body done) = Normal resp
        /\ status resp = 200
        /\ get (body resp) (str "confidence")
           = match get (VObj props) (str "confidence") with
             | VNum n => VNum n
             | _ => VNum 0.5%float
             end).
Proof.
  split.
  - intros out number Hans Hout Hnull Hnumber.
    destruct (intent2_output h pv req_body done elems chat out number Hans)
      as (w & Hw & Hrun); [now rewrite Hout | exact Hnull | exact Hnumber |].
    eexists. split; [exact Hrun|]. split; [reflexivity|].
    cbn [body get lookup]. decide_keys. cbn [truthy].
    split; [|split].
    + intros Habsent. unfold Variant2.field_or in Hnumber.
      rewrite Habsent in Hnumber. injection Hnumber as <-. reflexivity.
    + intros ->. now rewrite orb_true_r.
    + intros -> ->. reflexivity.
  - intros content props Hans Hcontent Hparse.
    destruct (intent1_object h pv req_body done elems chat content props
                Hans Hcontent Hparse) as (resp & Hrun & Hstatus & _ & Hconf & _).
    exists resp. auto.
Qed.

Lemma confidence_default_witness :
  (exists resp,
      fst (Variant2.intent example_host (answering sure_text) lights_request [])
      = Normal resp
      /\ get (body resp) (str "confidence") = VNum 0.9%float)
  /\ (exists resp,
      fst (Variant2.intent example_host (answering dim_text) lights_request [])
      = Normal resp
      /\ get (body resp) (str "confidence") = VNum 0.5%float)
  /\ (exists resp,
      fst (Variant1.intent example_host (answering zero_confidence_text)
             lights_request [])
      = Normal resp
      /\ get (body resp) (str "confidence") = VNum 0%float).
Proof.
  split; [|split].
  - destruct (proj1 (confidence_default example_host (answering sure_text)
                       lights_request []
                       [VStr (str "lights_on"); VStr (str "lights_off")]
                       (chat_with sure_text))
                sure_value 0.9%float (lights_answered only2 sure_text)
                eq_refl eq_refl eq_refl)
      as (resp & Hrun & _ & _ & _ & Hkept).
    exists resp. split; [exact Hrun|]. apply Hkept; reflexivity.
  - destruct (proj1 (confidence_default example_host (answering dim_text)
                       lights_request []
                       [VStr (str "lights_on"); VStr (str "lights_off")]
                       (chat_with dim_text))
                dim_value 0.5%float (lights_answered only2 dim_text)
                eq_refl eq_refl eq_refl)
      as (resp & Hrun & _ & Habsent & _).
    exists resp. split; [exact Hrun|]. apply Habsent. reflexivity.
  - destruct (proj2 (confidence_default example_host (answering zero_confidence_text)
                       lights_request []
                       [VStr (str "lights_on"); VStr (str "lights_off")]
                       (chat_with zero_confidence_text))
                (VStr zero_confidence_text)
                [(str "command", VStr (str "lights_on"));
                 (str "confidence", VNum 0%float)]
                (lights_answered only1 zero_confidence_text) eq_refl eq_refl)
      as (resp & Hrun & _ & Hconf).
    exists resp. split; [exact Hrun | exact Hconf].
Defined.

(** C5 as stated fails in the first revision: the upstream confidence
    ["0.9"] converts to the number 0.9, and the response carries 0.5. *)
Lemma intent1_does_not_convert :
  ToNumber example_host (VStr (str "0.9")) = Normal 0.9%float
  /\ fst (Variant1.intent example_host (answering quoted_confidence_text)
            lights_request [])
     = Normal {| status := 200;
                 body := VObj [(str "command", VStr (str "lights_on"));
                               (str "confidence", VNum 0.5%float);
                               (str "source", VStr (str "openai"))] |}.
Proof. split; reflexivity. Qed.

(** The second revision on an upstream confidence of zero: [0 || 0.5]. *)
Example intent2_zero_confidence :
  fst (Variant2.intent example_host (answering zero_confidence_text)
         lights_request [])
  = Normal {| status := 200;
              body := VObj [(str "command", VStr (str "lights_on"));
                            (str "confidence", VNum 0.5%float);
                            (str "source", VStr (str "openai"))] |}.
Proof. reflexivity. Qed.

(** C6, amended: when the content of the model is a string that is not
    JSON, the second revision goes on with an empty object and answers 200
    with the defaults; the first revision has no inner [try], the error
    reaches the [catch] of the route, and the answer is 500 with
    [intent_failed]. *)
Theorem unparseable_content (h : host) (pv : provider) (req_body : value)
    (done : list effect) (elems : list value) (chat : value) (s : jsstring) :
  JSON_parse_text h s = None ->
  (answered h pv only2 req_body done elems chat ->
   Variant2.content_or_default chat = Normal (VStr s) ->
   fst (Variant2.intent h pv req_body done)
   = Normal {| status := 200;
               body := VObj [(str "command", VNull);
                             (str "confidence", VNum 0.5%float);
                             (str "source", VStr (str "openai"))] |})
  /\ (answered h pv only1 req_body done elems chat ->
      strict_content chat = Normal (VStr s) ->
      fst (Variant1.intent h pv req_body done)
      = Normal {| status := 500; body := error_body (str "intent_failed") |}).
Proof.
  intros Hparse. split.
  - intros Hans Hcontent.
    destruct (intent2_output h pv req_body done elems chat (VObj []) 0.5%float Hans)
      as (w & Hw & Hrun); try reflexivity.
    + rewrite Hcontent. cbn [rbind]. unfold JSON_parse. cbn [ToString rbind].
      now rewrite Hparse.
    + rewrite Hrun. reflexivity.
  - intros (text & listing & Ht & Hc & Hne & Hj & Hchat) Hcontent.
    unfold Variant1.intent. run_to_chat Ht Hc Hne Hj Hchat.
    read_strictly Hcontent.
    unfold JSON_parse. cbn [ToString rbind]. rewrite Hparse. reflexivity.
Qed.

Lemma unparseable_content_witness :
  fst (Variant2.intent example_host (answering (str "not json")) lights_request [])
  = Normal {| status := 200;
              body := VObj [(str "command", VNull);
                            (str "confidence", VNum 0.5%float);
                            (str "source", VStr (str "openai"))] |}
  /\ fst (Variant1.intent example_host (answering (str "not json")) lights_request [])
     = Normal {| status := 500; body := error_body (str "intent_failed") |}.
Proof.
  split.
  - apply (proj1 (unparseable_content example_host (answering (str "not json"))
                    lights_request []
                    [VStr (str "lights_on"); VStr (str "lights_off")]
                    (chat_with (str "not json")) (str "not json") eq_refl)).
    + apply lights_answered.
    + reflexivity.
  - apply (proj2 (unparseable_content example_host (answering (str "not json"))
                    lights_request []
                    [VStr (str "lights_on"); VStr (str "lights_off")]
                    (chat_with (str "not json")) (str "not json") eq_refl)).
    + apply lights_answered.
    + reflexivity.
Defined.

(** C6 as stated fails in the first revision: the content [not json] ends
    in a server error, with the parse error logged. *)
Lemma intent1_fails_on_unparseable :
  Variant1.intent example_host (answering (str "not json")) lights_request []
  = (Normal {| status := 500; body := error_body (str "intent_failed") |},
     [Chatted (chat_for (userMsg only1 (str "turn on the light")
                                 (str "lights_on, lights_off")));
      ConsoleError SyntaxError]).
Proof. reflexivity. Qed.

(** *** The health probe *)

(** C8, amended: in the second revision the probe answers
    [{ok: true, port, keySource}], and once the server listens [keySource]
    names the source of the credential in use: [mockapi] for the key the
    resolver returned, [env] for the fallback.  In the first revision the
    probe answers [{ok: true, port, hasKey}] and has no [keySource]. *)
Theorem health_reports_source (h : host) (p p' : Variant2.process) :
  Variant2.run h p = (Normal tt, p') ->
  (Variant2.health p'
   = {| status := 200;
        body := VObj [(str "ok", VBool true);
                      (str "port", Variant2.PORT p);
                      (str "keySource", Variant2.KEY_SOURCE p')] |}
   /\ ((Variant2.KEY_SOURCE p' = VStr (str "mockapi")
        /\ truthy (Variant2.OPENAI_API_KEY p') = true
        /\ exists p1,
             Variant2.loadKeyFromMockAPI h 3 1500 p
             = (Normal (Variant2.OPENAI_API_KEY p'), p1))
       \/ (Variant2.KEY_SOURCE p' = VStr (str "env")
           /\ Variant2.OPENAI_API_KEY p'
              = Variant2.env_value (Variant2.env_OPENAI_API_KEY p)
           /\ exists p1,
                Variant2.loadKeyFromMockAPI h 3 1500 p = (Normal VNull, p1))))
  /\ (forall env,
      Variant1.health env
      = {| status := 200;
           body := VObj [(str "ok", VBool true);
                         (str "port", Variant1.PORT env);
                         (str "hasKey",
                          VBool (truthy (Variant1.env_value
                                           (Variant1.env_OPENAI_API_KEY env))))] |}).
Proof.
  intros Hrun. split.
  - destruct (Bootstrap.resolver_total h 3 1500 p) as (key & n & es & Hload & Hkey).
    rewrite (Bootstrap.run_after_resolver h p _ key Hload) in Hrun.
    destruct Hkey as [->|(s & -> & Hs)].
    + cbn [truthy] in Hrun.
      destruct (truthy (Variant2.env_value
                          (Variant2.env_OPENAI_API_KEY (advance p n es))))
        eqn:Hfb; [|discriminate].
      unfold after_initKey in Hrun.
      destruct (app_listen h _) as [[]|e]; [|discriminate].
      injection Hrun as <-. split; [reflexivity|].
      right. split; [reflexivity|]. split; [reflexivity|]. eauto.
    + apply Bootstrap.truthy_string in Hs.
      rewrite Hs in Hrun. unfold after_initKey in Hrun.
      destruct (app_listen h _) as [[]|e]; [|discriminate].
      injection Hrun as <-.
      split; [reflexivity|]. left. split; [reflexivity|]. split; [exact Hs|]. eauto.
  - intros env. unfold Variant1.health. now rewrite negb_involutive.
Qed.

Lemma health_reports_source_witness :
  body (Variant2.health
          (snd (Variant2.run example_host
                  (Variant2.start failing_endpoint
                     (Some (str "sk-env")) None))))
  = VObj [(str "ok", VBool true);
          (str "port", VNum 5500%float);
          (str "keySource", VStr (str "env"))].
Proof.
  destruct (health_reports_source example_host
              (Variant2.start failing_endpoint (Some (str "sk-env")) None)
              (snd (Variant2.run example_host
                      (Variant2.start failing_endpoint
                         (Some (str "sk-env")) None))))
    as ((Hbody & _) & _).
  - vm_compute. reflexivity.
  - rewrite Hbody. vm_compute. reflexivity.
Defined.

(** C8 as stated fails in the first revision: the body of the probe has
    [hasKey], and nothing under [keySource]. *)
Lemma health1_has_no_keySource :
  Variant1.health {| Variant1.env_OPENAI_API_KEY := Some (str "sk-env");
                     Variant1.env_PORT := None |}
  = {| status := 200;
       body := VObj [(str "ok", VBool true);
                     (str "port", VNum 5500%float);
                     (str "hasKey", VBool true)] |}
  /\ get (body (Variant1.health
                  {| Variant1.env_OPENAI_API_KEY := Some (str "sk-env");
                     Variant1.env_PORT := None |}))
         (str "keySource")
     = VUndefined.
Proof. split; reflexivity. Qed.

End Routes.

(** ** More on the extraction *)

Module ExtractionFacts.

Import JS JSFacts Variant2 Statements.

Lemma trim_start_head (s : jsstring) (c : N) (rest : jsstring) :
  trim_start s = c :: rest -> is_white_space c = false.
Proof.
  induction s as [|x s IH]; simpl; [discriminate|].
  destruct (is_white_space x) eqn:Hx; [exact IH|].
  intros [= <- _]. exact Hx.
Qed.

Lemma trim_start_suffix (s : jsstring) :
  exists ws, s = ws ++ trim_start s.
Proof.
  induction s as [|x s [ws IH]]; simpl; [exists []; reflexivity|].
  destruct (is_white_space x).
  - exists (x :: ws). simpl. now rewrite <- IH.
  - exists []. reflexivity.
Qed.

(** [trim] leaves no white space at either end. *)
Lemma trim_trimmed (s : jsstring) : spec_trimmed (trim s).
Proof.
  unfold trim. set (t := trim_start s). split.
  - intros c rest Hc.
    destruct (trim_start_suffix (rev t)) as [ws Hws].
    apply (f_equal (@rev N)) in Hws.
    rewrite rev_involutive, rev_app_distr, Hc in Hws.
    apply (trim_start_head s c (rest ++ rev ws)). exact Hws.
  - intros front c Hc.
    apply (f_equal (@rev N)) in Hc.
    rewrite rev_involutive, rev_app_distr in Hc. simpl in Hc.
    exact (trim_start_head (rev t) c (rev front) Hc).
Qed.

Lemma digit_is_digit (d : nat) (acc : jsstring) :
  (d < 10)%nat -> not_an_index (digit d :: acc) = false.
Proof.
  intros Hd. unfold not_an_index, digit.
  replace (N.leb 48 (N.of_nat (48 + d))) with true
    by (symmetry; apply N.leb_le; lia).
  replace (N.leb (N.of_nat (48 + d)) 57) with true
    by (symmetry; apply N.leb_le; lia).
  reflexivity.
Qed.

Lemma key_of_index_aux_digit (fuel : nat) :
  forall n acc, not_an_index (key_of_index_aux (S fuel) n acc) = false.
Proof.
  induction fuel as [|fuel IH]; intros n acc.
  - cbn [key_of_index_aux].
    destruct (Nat.eqb (n / 10) 0);
      apply digit_is_digit, Nat.mod_upper_bound; discriminate.
  - change (key_of_index_aux (S (S fuel)) n acc)
      with (if Nat.eqb (n / 10) 0 then digit (n mod 10) :: acc
            else key_of_index_aux (S fuel) (n / 10) (digit (n mod 10) :: acc)).
    destruct (Nat.eqb (n / 10) 0); [|apply IH].
    apply digit_is_digit, Nat.mod_upper_bound; discriminate.
Qed.

(** The key of an index starts with a digit. *)
Lemma key_of_index_digit (i : nat) : not_an_index (key_of_index i) = false.
Proof. apply key_of_index_aux_digit. Qed.

(** A key that is no index names no element. *)
Lemma find_index_not_an_index {A} (k : jsstring) (elems : list A) :
  not_an_index k = true -> forall i, find_index k i elems = None.
Proof.
  intros Hk. induction elems as [|x rest IH]; intros i; simpl; [reflexivity|].
  destruct (str_eqb k (key_of_index i)) eqn:Heq; [|apply IH].
  apply str_eqb_eq in Heq. rewrite Heq, key_of_index_digit in Hk. discriminate.
Qed.

Lemma possibleFields_not_indices :
  forall f, In f possibleFields -> not_an_index f = true.
Proof.
  intros f Hf. repeat (destruct Hf as [<-|Hf]; [reflexivity|]). destruct Hf.
Qed.

(** What is read is there: a property that is not [undefined] is an own
    property. *)
Lemma defined_is_own (c : value) (k : jsstring) :
  get c k <> VUndefined -> hasOwnProperty c k = true.
Proof.
  destruct c as [| | | |s|elems named|props]; simpl; try congruence.
  - destruct (find_index k 0 s); congruence.
  - destruct (find_index k 0 elems); [reflexivity|].
    destruct (lookup k named); congruence.
  - destruct (lookup k props); congruence.
Qed.

Lemma scan_fields_found (h : host) (c : value) (fields : list jsstring) (r : result value) :
  scan_fields h c fields = Some r ->
  exists f, In f fields /\ hasOwnProperty c f = true /\ truthy (get c f) = true
    /\ r = rbind (ToString h (get c f)) (fun s => Normal (VStr (trim s))).
Proof.
  induction fields as [|f fields IH]; simpl; [discriminate|].
  destruct (truthy c && hasOwnProperty c f && truthy (get c f)) eqn:Htest.
  - intros [= <-]. exists f.
    apply andb_true_iff in Htest as [Htest Hv].
    apply andb_true_iff in Htest as [_ Hown]. auto.
  - intros Hr. destruct (IH Hr) as (g & Hg & Hrest). exists g. auto.
Qed.

Lemma scan_keys_found (c : value) (keys : list jsstring) (key : value) :
  scan_keys c keys = Some key ->
  exists k s, In k keys /\ get c k = VStr s /\ 20 < List.length s
    /\ key = VStr (trim s).
Proof.
  induction keys as [|k keys IH]; simpl; [discriminate|].
  destruct (get c k) as [| | | |s| |] eqn:Hk;
    try (intros Hr; destruct (IH Hr) as (k' & s' & Hin & Hrest);
         exists k', s'; auto).
  destruct (Nat.ltb 20 (List.length s)) eqn:Hlen.
  - intros [= <-]. exists k, s. apply Nat.ltb_lt in Hlen. auto.
  - intros Hr. destruct (IH Hr) as (k' & s' & Hin & Hrest). exists k', s'. auto.
Qed.

(** Where a returned key comes from. *)
Lemma extractKeyFromBody_origin (h : host) (body : value) (key : jsstring) :
  extractKeyFromBody h body = Normal (VStr key) ->
  exists name s,
    hasOwnProperty (spec_candidate body) name = true
    /\ truthy (get (spec_candidate body) name) = true
    /\ ToString h (get (spec_candidate body) name) = Normal s
    /\ key = trim s.
Proof.
  unfold extractKeyFromBody.
  rewrite SecretExtraction.candidate_is_spec_candidate.
  set (c := spec_candidate body).
  destruct (negb (truthy body)); [discriminate|].
  destruct (scan_fields h c possibleFields) as [r|] eqn:Hf.
  - destruct (scan_fields_found h c possibleFields r Hf)
      as (f & _ & Hown & Hv & ->).
    destruct (ToString h (get c f)) as [s| | |] eqn:Hs; simpl; try discriminate.
    intros [= <-]. exists f, s. auto.
  - destruct (truthy c && is_object c); [|discriminate].
    destruct (scan_keys c (Object_keys c)) as [found|] eqn:Hk; [|discriminate].
    destruct (scan_keys_found c (Object_keys c) found Hk)
      as (k & s & _ & Hget & Hlen & ->).
    intros [= <-]. exists k, s. rewrite Hget. repeat split.
    + apply defined_is_own. rewrite Hget. discriminate.
    + destruct s; [inversion Hlen | reflexivity].
Qed.

(** X1: a key that [extractKeyFromBody] returns has no white space at
    either end. *)
Theorem extracted_key_is_trimmed (h : host) (body : value) (key : jsstring) :
  extractKeyFromBody h body = Normal (VStr key) -> spec_trimmed key.
Proof.
  intros Hx.
  destruct (extractKeyFromBody_origin h body key Hx) as (name & s & _ & _ & _ & ->).
  apply trim_trimmed.
Qed.

Lemma extracted_key_is_trimmed_witness :
  spec_trimmed (str "sk-live-1").
Proof.
  apply (extracted_key_is_trimmed (runtime [] [])
           (VArr [VObj [(str "id", VStr (str "1"));
                        (str "api_key", VStr (str "  sk-live-1 "))]] [])).
  reflexivity.
Defined.

(** X2: a key that [extractKeyFromBody] returns is the trimmed string of an
    own, truthy property of the candidate; nothing else is ever returned as
    a key. *)
Theorem extracted_key_has_a_source (h : host) (body : value) (key : jsstring) :
  extractKeyFromBody h body = Normal (VStr key) ->
  exists name s,
    hasOwnProperty (spec_candidate body) name = true
    /\ truthy (get (spec_candidate body) name) = true
    /\ ToString h (get (spec_candidate body) name) = Normal s
    /\ key = trim s.
Proof. apply extractKeyFromBody_origin. Qed.

Lemma extracted_key_has_a_source_witness :
  exists name s,
    hasOwnProperty (VObj [(str "id", VStr (str "7"));
                          (str "token", VNum 0%float);
                          (str "value", VBool true)]) name = true
    /\ truthy (get (VObj [(str "id", VStr (str "7"));
                          (str "token", VNum 0%float);
                          (str "value", VBool true)]) name) = true
    /\ ToString (runtime [] [])
         (get (VObj [(str "id", VStr (str "7"));
                     (str "token", VNum 0%float);
                     (str "value", VBool true)]) name) = Normal s
    /\ str "true" = trim s.
Proof.
  apply (extracted_key_has_a_source (runtime [] [])
           (VObj [(str "id", VStr (str "7"));
                  (str "token", VNum 0%float);
                  (str "value", VBool true)])).
  reflexivity.
Defined.

(** X3: when the candidate is neither an object nor an array (a string, a
    number, a boolean, [null]), the result is [null]: a bare string is never
    taken for a key, however long. *)
Theorem primitive_candidate_gives_null (h : host) (body : value) :
  primitive (spec_candidate body) = true ->
  extractKeyFromBody h body = Normal VNull.
Proof.
  intros Hprim. unfold extractKeyFromBody.
  rewrite SecretExtraction.candidate_is_spec_candidate.
  set (c := spec_candidate body) in *.
  destruct (negb (truthy body)); [reflexivity|].
  rewrite (SecretExtraction.scan_fields_miss h c possibleFields).
  - destruct c; try discriminate Hprim;
      cbn [truthy is_object typeof andb]; rewrite ?andb_false_r; reflexivity.
  - intros g Hg. unfold spec_present_truthy.
    destruct c as [| | | |s| |]; try discriminate Hprim; try reflexivity.
    cbn [hasOwnProperty].
    now rewrite (find_index_not_an_index g s (possibleFields_not_indices g Hg)).
Qed.

Lemma primitive_candidate_gives_null_witness :
  extractKeyFromBody (runtime [] [])
    (VStr (str "sk-0123456789abcdefghijklmnopqrstuvwxyz")) = Normal VNull
  /\ extractKeyFromBody (runtime [] [])
       (VArr [VStr (str "sk-0123456789abcdefghijklmnopqrstuvwxyz")] [])
     = Normal VNull.
Proof.
  split.
  - apply (primitive_candidate_gives_null (runtime [] [])
             (VStr (str "sk-0123456789abcdefghijklmnopqrstuvwxyz"))).
    reflexivity.
  - apply (primitive_candidate_gives_null (runtime [] [])
             (VArr [VStr (str "sk-0123456789abcdefghijklmnopqrstuvwxyz")] [])).
    reflexivity.
Defined.

End ExtractionFacts.

(** ** More on the resolver and the bootstrap *)

Module ResolverFacts.

Import JS JS.Notations JSFacts Variant2 Statements.

Local Open Scope Z_scope.

Lemma turn_outcome_succeeds (h : host) (answer : reply fetch_response) (key : value) :
  spec_succeeds h answer key <-> turn_outcome h answer = inl key.
Proof.
  split.
  - intros [res body k Hok Hjson Hx Hk]. simpl.
    now rewrite Hok, Hjson, Hx, Hk.
  - destruct answer as [res|e]; simpl; [|discriminate].
    destruct (res_ok res) eqn:Hok; [|discriminate].
    destruct (res_json res) as [body|e] eqn:Hjson; [|discriminate].
    destruct (extractKeyFromBody h body) as [k| | |] eqn:Hx; try discriminate.
    destruct (truthy k) eqn:Hk; [|discriminate].
    intros [= <-]. apply succeeds_with with (body := body); assumption.
Qed.

Lemma turn_outcome_failed (h : host) (answer : reply fetch_response) (err : error) :
  turn_outcome h answer = inr err -> spec_fails h answer.
Proof.
  destruct answer as [res|e]; simpl; [|intros _; apply fails_network].
  destruct (res_ok res) eqn:Hok; [|intros _; now apply fails_status].
  destruct (res_json res) as [body|e] eqn:Hjson;
    [|intros _; now apply fails_unreadable with (e := e)].
  intros Hout. apply fails_no_key with (body := body); [exact Hjson|].
  intros key Hx. rewrite Hx in Hout.
  destruct (truthy key); [discriminate | reflexivity].
Qed.

(** An attempt does not both fail and give a key. *)
Lemma fails_or_succeeds (h : host) (answer : reply fetch_response) (key : value) :
  spec_fails h answer -> spec_succeeds h answer key -> False.
Proof.
  intros Hf Hs. apply turn_outcome_succeeds in Hs.
  destruct (Bootstrap.turn_outcome_fails h answer Hf) as [err Herr].
  congruence.
Qed.

Lemma schedule_requests (delayMs : Z) (n : nat) :
  List.length (filter is_request (spec_schedule delayMs n)) = n.
Proof.
  induction n as [|n IH]; [reflexivity|].
  cbn [spec_schedule filter is_request List.length]. f_equal.
  destruct n as [|m]; [reflexivity | exact IH].
Qed.

Lemma requests_among_steps (es : list event) :
  filter is_request (filter is_request_or_wait es) = filter is_request es.
Proof.
  induction es as [|e es IH]; [reflexivity|].
  destruct e; simpl; rewrite ?IH; reflexivity.
Qed.

Section Runs.

Variables (h : host) (maxAttempts delayMs : Z).

(** Every run of the loop: the attempts fail up to one that gives a key, or
    they all fail. *)
Lemma attempts_from_runs (fuel : nat) :
  forall (attempt : Z) (p : process),
    Z.of_nat fuel = maxAttempts - attempt + 1 ->
    (exists k key es,
        (k < fuel)%nat
        /\ (forall i, (i < k)%nat -> spec_fails h (remote p (i + sent p)%nat))
        /\ spec_succeeds h (remote p (k + sent p)%nat) key
        /\ attempts_from h maxAttempts delayMs fuel attempt p
           = (Normal key, advance p (S k) es)
        /\ filter is_request_or_wait es = spec_schedule delayMs (S k))
    \/ ((forall i, (i < fuel)%nat -> spec_fails h (remote p (i + sent p)%nat))
        /\ exists es,
             attempts_from h maxAttempts delayMs fuel attempt p
             = (Normal VNull, advance p fuel es)
             /\ filter is_request_or_wait es = spec_schedule delayMs fuel).
Proof.
  induction fuel as [|fuel IH]; intros attempt p Hfuel.
  - right. split; [intros i Hi; lia|].
    exists []. cbn [attempts_from].
    replace (Z.leb attempt maxAttempts) with false
      by (symmetry; apply Z.leb_gt; lia).
    unfold ret. now rewrite Bootstrap.advance_nothing.
  - cbn [attempts_from].
    replace (Z.leb attempt maxAttempts) with true
      by (symmetry; apply Z.leb_le; lia).
    unfold bind. rewrite !Bootstrap.attempt_once_outcome.
    destruct (turn_outcome h (remote p (sent p))) as [key|err] eqn:Hturn.
    + left. exists 0%nat, key, [Fetched MOCKAPI_URL (str "GET") 8000].
      repeat split; try reflexivity; [lia | intros i Hi; lia |].
      now apply turn_outcome_succeeds.
    + apply turn_outcome_failed in Hturn.
      match goal with |- context [advance p 1 ?es] => set (es1 := es) end.
      assert (Hshift : forall i, remote (advance p 1 es1) (i + sent (advance p 1 es1))%nat
                                 = remote p (S i + sent p)%nat).
      { intros i. cbn [advance remote sent]. f_equal. lia. }
      destruct (IH (attempt + 1) (advance p 1 es1)) as
        [(k & key & es & Hk & Hfail & Hsucc & Hrun & Hio)|(Hfail & es & Hrun & Hio)];
        [lia| |].
      * left. exists (S k), key, (es1 ++ es).
        split; [lia|]. split; [|split; [|split]].
        -- intros [|i] Hi; [exact Hturn|].
           rewrite <- Hshift. apply Hfail. lia.
        -- rewrite <- Hshift. exact Hsucc.
        -- now rewrite Hrun, Bootstrap.advance_advance.
        -- rewrite filter_app, Hio. subst es1.
           replace (Z.ltb attempt maxAttempts) with true
             by (symmetry; apply Z.ltb_lt; lia).
           reflexivity.
      * right. split.
        -- intros [|i] Hi; [exact Hturn|].
           rewrite <- Hshift. apply Hfail. lia.
        -- exists (es1 ++ es). rewrite Hrun, Bootstrap.advance_advance.
           split; [reflexivity|].
           rewrite filter_app, Hio. subst es1. cbn [spec_schedule].
           destruct fuel as [|fuel'].
           ++ replace (Z.ltb attempt maxAttempts) with false
                by (symmetry; apply Z.ltb_ge; lia).
              reflexivity.
           ++ replace (Z.ltb attempt maxAttempts) with true
                by (symmetry; apply Z.ltb_lt; lia).
              reflexivity.
Qed.

End Runs.

(** X4: the resolver stops at the first attempt that gives a key: when the
    first [k] attempts fail and the next one succeeds, within the attempts
    allowed, it returns that key after [k + 1] requests, having waited after
    each failure, and sends nothing more. *)
Theorem resolver_stops_at_first_success (h : host) (maxAttempts delayMs : Z)
    (p : process) (k : nat) (key : value) :
  (k < Z.to_nat maxAttempts)%nat ->
  (forall i, (i < k)%nat -> spec_fails h (remote p (i + sent p)%nat)) ->
  spec_succeeds h (remote p (k + sent p)%nat) key ->
  exists p' es,
    loadKeyFromMockAPI h maxAttempts delayMs p = (Normal key, p')
    /\ sent p' = (S k + sent p)%nat
    /\ trace p' = trace p ++ es
    /\ filter is_request_or_wait es = spec_schedule delayMs (S k).
Proof.
  intros Hk Hfail Hsucc.
  destruct (attempts_from_runs h maxAttempts delayMs (Z.to_nat maxAttempts) 1 p)
    as [(k' & key' & es & Hk' & Hfail' & Hsucc' & Hrun & Hio)|(Hall & _)]; [lia| |].
  - assert (k' = k) as ->.
    { destruct (Nat.lt_trichotomy k' k) as [Hlt|[Heq|Hgt]]; [|exact Heq|].
      - exfalso. exact (fails_or_succeeds h _ key' (Hfail k' Hlt) Hsucc').
      - exfalso. exact (fails_or_succeeds h _ key (Hfail' k Hgt) Hsucc). }
    assert (key' = key) as ->.
    { apply turn_outcome_succeeds in Hsucc, Hsucc'. congruence. }
    exists (advance p (S k) es), es. auto.
  - exfalso. exact (fails_or_succeeds h _ key (Hall k Hk) Hsucc).
Qed.

Lemma resolver_stops_at_first_success_witness :
  exists p' es,
    loadKeyFromMockAPI (runtime [] []) 5 1500
      (start recovering_endpoint None None)
    = (Normal (VStr (str "sk-remote")), p')
    /\ sent p' = 3%nat
    /\ trace p' = [] ++ es
    /\ filter is_request_or_wait es = spec_schedule 1500 3.
Proof.
  apply (resolver_stops_at_first_success (runtime [] []) 5 1500
           (start recovering_endpoint None None) 2 (VStr (str "sk-remote"))).
  - vm_compute. lia.
  - intros i Hi. destruct i as [|[|i]]; [apply fails_network | apply fails_network | lia].
  - apply succeeds_with
      with (body := VArr [VObj [(str "id", VStr (str "1"));
                                (str "key", VStr (str " sk-remote "))]] []);
      reflexivity.
Defined.

(** X5: every run of the resolver has one of two shapes.  Either some
    attempt within the allowed ones is the first to give a key, and the
    resolver returns it straight after that request; or every allowed
    attempt fails and the resolver returns [null].  In both the requests and
    waits alternate, and the two module variables are left as they were. *)
Theorem resolver_runs (h : host) (maxAttempts delayMs : Z) (p : process) :
  (exists k key es,
      (k < Z.to_nat maxAttempts)%nat
      /\ (forall i, (i < k)%nat -> spec_fails h (remote p (i + sent p)%nat))
      /\ spec_succeeds h (remote p (k + sent p)%nat) key
      /\ loadKeyFromMockAPI h maxAttempts delayMs p
         = (Normal key, advance p (S k) es)
      /\ filter is_request_or_wait es = spec_schedule delayMs (S k))
  \/ ((forall i, (i < Z.to_nat maxAttempts)%nat ->
                 spec_fails h (remote p (i + sent p)%nat))
      /\ exists es,
           loadKeyFromMockAPI h maxAttempts delayMs p
           = (Normal VNull, advance p (Z.to_nat maxAttempts) es)
           /\ filter is_request_or_wait es
              = spec_schedule delayMs (Z.to_nat maxAttempts)).
Proof.
  destruct (Z.le_gt_cases maxAttempts 0) as [Hnone|Hsome].
  - right. replace (Z.to_nat maxAttempts) with 0%nat by lia.
    split; [intros i Hi; lia|]. exists [].
    unfold loadKeyFromMockAPI. replace (Z.to_nat maxAttempts) with 0%nat by lia.
    cbn [attempts_from].
    replace (Z.leb 1 maxAttempts) with false by (symmetry; apply Z.leb_gt; lia).
    unfold ret. now rewrite Bootstrap.advance_nothing.
  - apply (attempts_from_runs h maxAttempts delayMs (Z.to_nat maxAttempts) 1 p).
    lia.
Qed.

(** X6: whatever the endpoint answers, the resolver sends at most
    [maxAttempts] requests (none when [maxAttempts] is zero or negative),
    each one logged once, and it returns [null] only after it has used them
    all. *)
Theorem resolver_request_bound (h : host) (maxAttempts delayMs : Z) (p : process) :
  exists key n es,
    loadKeyFromMockAPI h maxAttempts delayMs p = (Normal key, advance p n es)
    /\ Z.of_nat n <= Z.max 0 maxAttempts
    /\ List.length (filter is_request es) = n
    /\ (key = VNull -> Z.of_nat n = Z.max 0 maxAttempts).
Proof.
  destruct (Z.le_gt_cases maxAttempts 0) as [Hnone|Hsome].
  - exists VNull, 0%nat, []. unfold loadKeyFromMockAPI.
    replace (Z.to_nat maxAttempts) with 0%nat by lia.
    cbn [attempts_from].
    replace (Z.leb 1 maxAttempts) with false by (symmetry; apply Z.leb_gt; lia).
    unfold ret. rewrite Bootstrap.advance_nothing.
    repeat split; try reflexivity; lia.
  - destruct (attempts_from_runs h maxAttempts delayMs (Z.to_nat maxAttempts) 1 p)
      as [(k & key & es & Hk & _ & Hsucc & Hrun & Hio)|(_ & es & Hrun & Hio)];
      [lia| |].
    + exists key, (S k), es. split; [exact Hrun|]. split; [lia|]. split.
      * now rewrite <- requests_among_steps, Hio, schedule_requests.
      * intros ->. exfalso. inversion Hsucc; subst. discriminate.
    + exists VNull, (Z.to_nat maxAttempts), es. split; [exact Hrun|].
      split; [lia|]. split; [|lia].
      now rewrite <- requests_among_steps, Hio, schedule_requests.
Qed.

(** X7: the second revision gets as far as the first.  When the early
    check of the first revision passes, [initKey] of the second revision
    returns whatever the endpoint answers, with a key from the endpoint or
    with the key the first revision uses; and under the same runtime the two
    revisions end alike: when [app.listen] returns in the first, it returns
    in the second, called with the same port, and when it raises in the
    first, the second reports the error and exits with status 1. *)
Theorem second_revision_starts_when_first_does (h : host)
    (endpoint : nat -> reply fetch_response) (key port : option jsstring) :
  let env := {| Variant1.env_OPENAI_API_KEY := key;
                Variant1.env_PORT := port |} in
  Variant1.early_check env = Normal tt ->
  exists p0,
    initKey h (start endpoint key port) = (Normal tt, p0)
    /\ ((KEY_SOURCE p0 = VStr (str "mockapi")
         /\ truthy (OPENAI_API_KEY p0) = true)
        \/ (KEY_SOURCE p0 = VStr (str "env")
            /\ OPENAI_API_KEY p0 = Variant1.env_value key))
    /\ match Variant1.startup h env with
       | Normal srv =>
           Variant1.client_apiKey srv = Variant1.env_value key
           /\ run h (start endpoint key port)
              = (Normal tt,
                 advance p0 0 [ClientCreated (OPENAI_API_KEY p0);
                               ListenReturned (Variant1.requested_port srv)])
       | Throw e =>
           run h (start endpoint key port)
           = (Exit 1,
              advance p0 0 [ClientCreated (OPENAI_API_KEY p0); FatalStartup e])
       | _ => False
       end.
Proof.
  intros env Hcheck.
  assert (Hkey : truthy (Variant1.env_value key) = true).
  { unfold Variant1.early_check in Hcheck.
    cbn [env Variant1.env_OPENAI_API_KEY] in Hcheck.
    destruct (truthy (Variant1.env_value key)); [reflexivity | discriminate]. }
  destruct (Bootstrap.resolver_total h 3 1500 (start endpoint key port))
    as (found & n & es & Hload & Hfound).
  pose proof (Bootstrap.initKey_after_resolver h _ _ found Hload) as Hinit.
  change (env_value (env_OPENAI_API_KEY (advance (start endpoint key port) n es)))
    with (Variant1.env_value key) in Hinit.
  rewrite Hkey in Hinit.
  assert (Hend : forall p0,
             initKey h (start endpoint key port) = (Normal tt, p0) ->
             PORT p0 = Variant1.PORT env ->
             match Variant1.startup h env with
             | Normal srv =>
                 Variant1.client_apiKey srv = Variant1.env_value key
                 /\ run h (start endpoint key port)
                    = (Normal tt,
                       advance p0 0 [ClientCreated (OPENAI_API_KEY p0);
                                     ListenReturned (Variant1.requested_port srv)])
             | Throw e =>
                 run h (start endpoint key port)
                 = (Exit 1,
                    advance p0 0 [ClientCreated (OPENAI_API_KEY p0);
                                  FatalStartup e])
             | _ => False
             end).
  { intros p0 Hp0 Hport.
    rewrite (Bootstrap.run_after_initKey h _ p0 Hp0).
    unfold Variant1.startup, after_initKey. rewrite Hcheck, Hport. cbn [rbind].
    destruct (app_listen h (Variant1.PORT env)) as [[]|e];
      [split; reflexivity | reflexivity]. }
  destruct (truthy found) eqn:Hf.
  - eexists. split; [exact Hinit|]. split.
    + left. split; [reflexivity | exact Hf].
    + apply Hend; [exact Hinit | reflexivity].
  - eexists. split; [exact Hinit|]. split.
    + right. split; reflexivity.
    + apply Hend; [exact Hinit | reflexivity].
Qed.

Lemma second_revision_starts_when_first_does_witness :
  exists p0,
    initKey (runtime [] [])
      (start failing_endpoint (Some (str "sk-env")) (Some (str "99999")))
    = (Normal tt, p0)
    /\ ((KEY_SOURCE p0 = VStr (str "mockapi")
         /\ truthy (OPENAI_API_KEY p0) = true)
        \/ (KEY_SOURCE p0 = VStr (str "env")
            /\ OPENAI_API_KEY p0 = VStr (str "sk-env")))
    /\ run (runtime [] [])
         (start failing_endpoint (Some (str "sk-env")) (Some (str "99999")))
       = (Exit 1,
          advance p0 0 [ClientCreated (OPENAI_API_KEY p0);
                        FatalStartup (External (str "ERR_SOCKET_BAD_PORT"))]).
Proof.
  apply (second_revision_starts_when_first_does (runtime [] []) failing_endpoint
           (Some (str "sk-env")) (Some (str "99999"))).
  reflexivity.
Defined.

(** The converse does not hold: with no key in the environment the first
    revision exits, and the second starts on the key of the endpoint. *)
Example second_revision_starts_without_environment :
  Variant1.startup (runtime [] [])
    {| Variant1.env_OPENAI_API_KEY := None; Variant1.env_PORT := None |}
  = Exit 1
  /\ fst (run (runtime [] []) (start answering_endpoint None None)) = Normal tt.
Proof. split; reflexivity. Qed.

End ResolverFacts.

(** ** More on the routes *)

Module RouteFacts.

Import JS JS.Notations JSFacts Service Statements Routes.

Local Open Scope Z_scope.

(** X8: what the transcription route does with a file.  When the write
    fails the service is never called, and the answer is 500; when the
    service fails the answer is 500; when it answers, the response is 200
    with the text of the transcription, or the empty string when that text
    is missing or falsy.  Every failure is logged, once. *)
Theorem transcribe_outcomes (pv : provider) (done : list effect) (buffer : list N) :
  let tmp := str "/tmp/input.webm" in
  let written := done ++ [WroteFile tmp buffer] in
  (forall e,
      writeFile pv done tmp buffer = Rejected e ->
      transcribe pv (Some buffer) done
      = (Normal transcription_failed_response, written ++ [ConsoleError e]))
  /\ (writeFile pv done tmp buffer = Resolved tt ->
      (forall e,
          audio_transcriptions_create pv written transcription_of_tmp = Rejected e ->
          transcribe pv (Some buffer) done
          = (Normal transcription_failed_response,
             written ++ [Transcribed transcription_of_tmp; ConsoleError e]))
      /\ (forall transcription,
          audio_transcriptions_create pv written transcription_of_tmp
          = Resolved transcription ->
          nullish transcription = false ->
          transcribe pv (Some buffer) done
          = (Normal {| status := 200;
                       body := VObj [(str "text",
                                      if truthy (get transcription (str "text"))
                                      then get transcription (str "text")
                                      else VStr [])] |},
             written ++ [Transcribed transcription_of_tmp]))).
Proof.
  intros tmp written. unfold written, tmp, transcription_of_tmp.
  unfold transcribe, try_catch, bind, call, lift, emit, res_json, ret.
  split.
  - intros e ->. reflexivity.
  - intros ->. cbn [await ret throw]. unfold ret. split.
    + intros e ->. cbn [await throw]. rewrite <- !app_assoc. reflexivity.
    + intros transcription -> Hnull. cbn [await ret].
      unfold get_strict. rewrite Hnull. reflexivity.
Qed.

(** *** Steps and their effects *)

Lemma steps_ret {A} (a : A) (Q : list effect -> result A -> Prop) :
  Q [] (Normal a) -> steps (ret a) Q.
Proof.
  intros HQ done. exists []. rewrite app_nil_r. simpl. auto.
Qed.

Lemma steps_bind_lift {A B} (r : result A) (k : A -> handler B)
    (Q : list effect -> result B -> Prop) :
  settles r ->
  (forall a, r = Normal a -> steps (k a) Q) ->
  (forall e, r = Throw e -> Q [] (Throw e)) ->
  steps (bind (lift r) k) Q.
Proof.
  intros Hs Hk He done. unfold bind, lift.
  destruct r as [a|e| |]; simpl in Hs; try contradiction.
  - exact (Hk a eq_refl done).
  - exists []. rewrite app_nil_r. simpl. auto.
Qed.

Lemma steps_bind_call {A B} (e : effect) (answer : list effect -> reply A)
    (k : A -> handler B) (Q : list effect -> result B -> Prop) :
  (forall a, steps (k a) (fun es r => Q (e :: es) r)) ->
  (forall err, Q [e] (Throw err)) ->
  steps (bind (call e answer) k) Q.
Proof.
  intros Hk He done. unfold bind, call.
  destruct (answer done) as [a|err]; cbn [await ret throw]; unfold ret, throw.
  - destruct (Hk a (done ++ [e])) as (es & Htrace & Hs & HQ).
    exists (e :: es). rewrite Htrace, <- app_assoc. auto.
  - exists [e]. simpl. auto.
Qed.

Lemma steps_bind_guard {B} (b : bool) (e : error) (k : handler B)
    (Q : list effect -> result B -> Prop) :
  (b = true -> Q [] (Throw e)) ->
  (b = false -> steps k Q) ->
  steps (bind (if b then throw e else ret tt) (fun _ => k)) Q.
Proof.
  intros Ht Hf done. unfold bind. destruct b; unfold throw, ret.
  - exists []. rewrite app_nil_r. simpl. auto.
  - exact (Hf eq_refl done).
Qed.

(** [try { x = ... } catch { x = fallback }] around a conversion. *)
Lemma steps_bind_recover {A B} (r : result A) (fallback : A) (k : A -> handler B)
    (Q : list effect -> result B -> Prop) :
  settles r ->
  (forall a, steps (k a) Q) ->
  steps (bind (try_catch (lift r) (fun _ => ret fallback)) k) Q.
Proof.
  intros Hs Hk done. unfold bind, try_catch, lift, ret.
  destruct r as [a|e| |]; simpl in Hs; try contradiction.
  - exact (Hk a done).
  - exact (Hk fallback done).
Qed.

(** The [catch] of a route: the exception is logged, and the answer is 500. *)
Lemma steps_caught (m : handler response) (Q : list effect -> result response -> Prop)
    (code : jsstring) :
  steps m Q ->
  forall done, exists resp es,
    try_catch m (fun e => emit (ConsoleError e) ;;;
                          res_json 500 (error_body code)) done
    = (Normal resp, done ++ es)
    /\ (Q es (Normal resp)
        \/ exists es0 e,
             Q es0 (Throw e) /\ es = es0 ++ [ConsoleError e]
             /\ resp = {| status := 500; body := error_body code |}).
Proof.
  intros Hm done. destruct (Hm done) as (es & Htrace & Hs & HQ).
  unfold try_catch. destruct (m done) as [[resp|e| |] done'];
    simpl in Htrace, Hs, HQ; try contradiction; subst done'.
  - exists resp, es. auto.
  - exists {| status := 500; body := error_body code |}, (es ++ [ConsoleError e]).
    split; [cbn; now rewrite app_assoc|]. right. exists es, e. auto.
Qed.

Lemma hidden_or_converted {A} (hidden : bool) (r : result A) :
  settles r -> settles (if hidden then Throw TypeError else r).
Proof. destruct hidden; [intros _; exact I | auto]. Qed.

Lemma confidence_in_response (number : float) :
  exists confidence,
    (if truthy (VNum number) then VNum number else VNum 0.5%float) = VNum confidence
    /\ PrimFloat.is_nan confidence = false
    /\ PrimFloat.is_zero confidence = false.
Proof.
  cbn [truthy].
  destruct (PrimFloat.is_zero number) eqn:Hz;
    [exists 0.5%float; repeat split|].
  destruct (PrimFloat.is_nan number) eqn:Hn;
    [exists 0.5%float; repeat split|].
  exists number. repeat split; assumption.
Qed.

(** Every run of the body of the second revision's route. *)
Lemma intent2_body_steps (h : host) (pv : provider) (req_body : value) :
  exists m,
    Variant2.intent h pv req_body
    = try_catch m (fun e => emit (ConsoleError e) ;;;
                            res_json 500 (error_body (str "intent_failed")))
    /\ steps m (intent_end (valid_request req_body)
                           (well_classified h (commands_of req_body))).
Proof.
  eexists. split; [reflexivity|].
  unfold valid_request, text_of, commands_of.
  set (text := get (body_or_empty req_body) (str "text")).
  set (commands := get (body_or_empty req_body) (str "commands")).
  destruct (bad_request text commands); cbn [negb].
  - apply steps_ret. split; reflexivity.
  - apply steps_bind_lift;
      [apply hidden_or_converted, join_settles | intros listing _
      | intros e _; split; auto].
    apply steps_bind_call; [intros chat | intros err; split; eauto].
    apply steps_bind_recover; [|intros out].
    { apply settles_rbind; [|intros; apply JSON_parse_settles].
      unfold Variant2.content_or_default.
      apply settles_rbind; [apply get_strict_settles | intros; exact I]. }
    apply steps_bind_lift;
      [apply hidden_or_converted, map_String_settles | intros w Hw
      | intros e _; split; eauto].
    apply steps_bind_guard; [intros _; split; eauto | intros _].
    apply steps_bind_lift;
      [apply ToNumber_settles | intros number _ | intros e _; split; eauto].
    apply steps_ret. eexists. split; [reflexivity|].
    destruct (confidence_in_response number) as (confidence & -> & Hnan & Hzero).
    eexists _, confidence. split; [reflexivity|]. split; [exact Hnan|].
    split; [exact Hzero|].
    destruct (method_hidden (str "map") commands); [discriminate Hw|].
    destruct (Set_has w (Variant2.field_or out (str "command") VNull)) eqn:Hhas;
      cbn [negb]; [right | left; reflexivity].
    now apply (whitelist_spec h (elements commands) w).
Qed.

(** Reading after writing, for keys that are no indices. *)
Lemma get_set (v v' : value) (k k' : jsstring) (x : value) :
  set v k x = Normal v' ->
  not_an_index k' = true ->
  get v' k' = if str_eqb k' k then x else get v k'.
Proof.
  destruct v as [| | | | |elems named|props]; simpl; try discriminate;
    intros [= <-] Hk'.
  - cbn [get]. rewrite (ExtractionFacts.find_index_not_an_index k' elems Hk').
    rewrite lookup_update. destruct (str_eqb k' k); reflexivity.
  - apply get_update.
Qed.

(** [if (typeof json.confidence !== "number") json.confidence = 0.5]: the
    field is a number afterwards, and the other fields are as before. *)
Lemma confidence_defaulted (json json' : value) :
  match typeof (get json (str "confidence")) with
  | TyNumber => Normal json
  | _ => set json (str "confidence") (VNum 0.5%float)
  end = Normal json' ->
  typeof (get json' (str "confidence")) = TyNumber
  /\ get json' (str "source") = get json (str "source").
Proof.
  destruct (typeof (get json (str "confidence"))) eqn:Htype;
    try (intros Hset;
         rewrite (get_set json json' (str "confidence") (str "confidence") _ Hset eq_refl),
                 (get_set json json' (str "confidence") (str "source") _ Hset eq_refl);
         split; reflexivity).
  intros [= <-]. auto.
Qed.

(** [if (typeof json.command !== "string") json.command = null] *)
Lemma command_defaulted (json json' : value) :
  match typeof (get json (str "command")) with
  | TyString => Normal json
  | _ => set json (str "command") VNull
  end = Normal json' ->
  (get json' (str "command") = VNull
   \/ typeof (get json' (str "command")) = TyString)
  /\ get json' (str "confidence") = get json (str "confidence")
  /\ get json' (str "source") = get json (str "source").
Proof.
  destruct (typeof (get json (str "command"))) eqn:Htype;
    try (intros Hset;
         rewrite (get_set json json' (str "command") (str "command") _ Hset eq_refl),
                 (get_set json json' (str "command") (str "confidence") _ Hset eq_refl),
                 (get_set json json' (str "command") (str "source") _ Hset eq_refl);
         split; [left; reflexivity | split; reflexivity]).
  intros [= <-]. auto.
Qed.

(** Every run of the body of the first revision's route. *)
Lemma intent1_body_steps (h : host) (pv : provider) (req_body : value) :
  exists m,
    Variant1.intent h pv req_body
    = try_catch m (fun e => emit (ConsoleError e) ;;;
                            res_json 500 (error_body (str "intent_failed")))
    /\ steps m (intent_end (valid_request req_body) well_labelled).
Proof.
  eexists. split; [reflexivity|].
  unfold valid_request, text_of, commands_of.
  set (text := get (body_or_empty req_body) (str "text")).
  set (commands := get (body_or_empty req_body) (str "commands")).
  destruct (bad_request text commands); cbn [negb].
  - apply steps_ret. split; reflexivity.
  - apply steps_bind_lift;
      [apply hidden_or_converted, join_settles | intros listing _
      | intros e _; split; auto].
    apply steps_bind_call; [intros chat | intros err; split; eauto].
    do 4 (apply steps_bind_lift;
            [apply get_strict_settles | intros ? _ | intros e _; split; eauto]).
    apply steps_bind_lift;
      [apply JSON_parse_settles | intros json _ | intros e _; split; eauto].
    apply steps_bind_lift;
      [apply set_settles | intros json1 Hsource | intros e _; split; eauto].
    apply steps_bind_lift;
      [destruct (typeof (get json1 (str "confidence")));
         first [exact I | apply set_settles]
      | intros json2 Hconfidence | intros e _; split; eauto].
    apply steps_bind_lift;
      [destruct (typeof (get json2 (str "command")));
         first [exact I | apply set_settles]
      | intros json3 Hcommand | intros e _; split; eauto].
    apply steps_ret. eexists. split; [reflexivity|].
    apply confidence_defaulted in Hconfidence as [Hnumber Hkept].
    apply command_defaulted in Hcommand as (Hcmd & Hconf & Hsrc).
    unfold well_labelled. cbn [status body].
    rewrite Hconf, Hsrc, Hkept.
    rewrite (get_set _ json1 (str "source") (str "source") _ Hsource eq_refl).
    auto.
Qed.

Lemma intent_end_accounted (valid : bool) (good : response -> Prop)
    (resp : response) (es : list effect) :
  (forall r, good r -> status r = 200) ->
  intent_end valid good es (Normal resp)
  \/ (exists es0 e,
         intent_end valid good es0 (Throw e) /\ es = es0 ++ [ConsoleError e]
         /\ resp = {| status := 500; body := error_body (str "intent_failed") |}) ->
  accounted resp es.
Proof.
  intros Hgood [Hend|(es0 & e & Hend & -> & ->)].
  - cbn [intent_end] in Hend. destruct valid.
    + destruct Hend as (req & -> & Hresp). right; left.
      split; [exact (Hgood resp Hresp) | exists req; reflexivity].
    + destruct Hend as [-> ->]. left. auto.
  - right; right. split; [reflexivity|].
    destruct Hend as [_ [->|[req ->]]].
    + left. exists e. reflexivity.
    + right. exists req, e. reflexivity.
Qed.

(** X9: in both revisions, every run of the intent route answers, and its
    effects are accounted for: none for a rejected request; exactly one
    call to the provider for a 200; for a 500, the error logged once, after
    at most one call.  The provider is never asked twice. *)
Theorem intent_effects (h : host) (pv : provider) (req_body : value)
    (done : list effect) :
  (exists resp es,
      Variant1.intent h pv req_body done = (Normal resp, done ++ es)
      /\ accounted resp es)
  /\ (exists resp es,
      Variant2.intent h pv req_body done = (Normal resp, done ++ es)
      /\ accounted resp es).
Proof.
  split.
  - destruct (intent1_body_steps h pv req_body) as (m & -> & Hm).
    destruct (steps_caught m _ (str "intent_failed") Hm done)
      as (resp & es & Hrun & Hend).
    exists resp, es. split; [exact Hrun|].
    apply (intent_end_accounted (valid_request req_body) well_labelled);
      [|exact Hend].
    intros r Hr. apply Hr.
  - destruct (intent2_body_steps h pv req_body) as (m & -> & Hm).
    destruct (steps_caught m _ (str "intent_failed") Hm done)
      as (resp & es & Hrun & Hend).
    exists resp, es. split; [exact Hrun|].
    apply (intent_end_accounted (valid_request req_body)
             (well_classified h (commands_of req_body))); [|exact Hend].
    intros r (c & n & -> & _). reflexivity.
Qed.

Lemma good_when_200 (valid : bool) (good : response -> Prop)
    (resp : response) (es : list effect) :
  intent_end valid good es (Normal resp)
  \/ (exists es0 e,
         intent_end valid good es0 (Throw e) /\ es = es0 ++ [ConsoleError e]
         /\ resp = {| status := 500; body := error_body (str "intent_failed") |}) ->
  status resp = 200 -> good resp.
Proof.
  intros [Hend|(es0 & e & _ & _ & ->)] Hstatus; [|discriminate Hstatus].
  cbn [intent_end] in Hend. destruct valid.
  - destruct Hend as (req & _ & Hgood). exact Hgood.
  - destruct Hend as [-> _]. discriminate Hstatus.
Qed.

(** X10: every 200 response of the second revision has exactly the fields
    [command], [confidence] and [source]; the confidence is a number that
    is neither NaN nor zero, and the command is [null] or the string of a
    member of the request's list. *)
Theorem intent2_response_shape (h : host) (pv : provider) (req_body : value)
    (done done' : list effect) (resp : response) :
  Variant2.intent h pv req_body done = (Normal resp, done') ->
  status resp = 200 ->
  well_classified h (commands_of req_body) resp.
Proof.
  intros Hrun Hstatus.
  destruct (intent2_body_steps h pv req_body) as (m & Heq & Hm).
  destruct (steps_caught m _ (str "intent_failed") Hm done)
    as (resp' & es & Hrun' & Hend).
  rewrite Heq in Hrun. rewrite Hrun in Hrun'. injection Hrun' as <- _.
  exact (good_when_200 _ _ resp es Hend Hstatus).
Qed.

Lemma intent2_response_shape_witness :
  well_classified example_host
    (VArr [VStr (str "lights_on"); VStr (str "lights_off")] [])
    (classified (VStr (str "lights_on")) 0.9%float).
Proof.
  apply (intent2_response_shape example_host (answering sure_text)
           lights_request []
           [Chatted (chat_for (userMsg only2 (str "turn on the light")
                                       (str "lights_on, lights_off")))]
           (classified (VStr (str "lights_on")) 0.9%float));
    reflexivity.
Defined.

(** X11: every 200 response of the first revision carries a confidence
    that is a number, a command that is a string or [null], and the source
    [openai], whatever JSON the model returned. *)
Theorem intent1_response_shape (h : host) (pv : provider) (req_body : value)
    (done done' : list effect) (resp : response) :
  Variant1.intent h pv req_body done = (Normal resp, done') ->
  status resp = 200 ->
  typeof (get (body resp) (str "confidence")) = TyNumber
  /\ (get (body resp) (str "command") = VNull
      \/ typeof (get (body resp) (str "command")) = TyString)
  /\ get (body resp) (str "source") = VStr (str "openai").
Proof.
  intros Hrun Hstatus.
  destruct (intent1_body_steps h pv req_body) as (m & Heq & Hm).
  destruct (steps_caught m _ (str "intent_failed") Hm done)
    as (resp' & es & Hrun' & Hend).
  rewrite Heq in Hrun. rewrite Hrun in Hrun'. injection Hrun' as <- _.
  apply (good_when_200 _ _ resp es Hend Hstatus).
Qed.

Lemma intent1_response_shape_witness :
  typeof (VNum 0.5%float) = TyNumber
  /\ (VStr (str "lights_on") = VNull \/ typeof (VStr (str "lights_on")) = TyString)
  /\ VStr (str "openai") = VStr (str "openai").
Proof.
  apply (intent1_response_shape example_host (answering quoted_confidence_text)
           lights_request []
           [Chatted (chat_for (userMsg only1 (str "turn on the light")
                                       (str "lights_on, lights_off")))]
           {| status := 200;
              body := VObj [(str "command", VStr (str "lights_on"));
                            (str "confidence", VNum 0.5%float);
                            (str "source", VStr (str "openai"))] |});
    reflexivity.
Defined.

Lemma transcribe_outcomes_witness :
  transcribe (transcribing (VObj [])) (Some [26%N; 69%N]) []
  = (Normal {| status := 200; body := VObj [(str "text", VStr [])] |},
     [WroteFile (str "/tmp/input.webm") [26%N; 69%N];
      Transcribed transcription_of_tmp])
  /\ transcribe unreachable (Some [26%N; 69%N]) []
     = (Normal transcription_failed_response,
        [WroteFile (str "/tmp/input.webm") [26%N; 69%N];
         Transcribed transcription_of_tmp;
         ConsoleError (External (str "ECONNRESET"))])
  /\ transcribe speechless (Some [26%N; 69%N]) []
     = (Normal transcription_failed_response,
        [WroteFile (str "/tmp/input.webm") [26%N; 69%N];
         ConsoleError (External (str "unused"))]).
Proof.
  split; [|split].
  - apply (proj2 (proj2 (transcribe_outcomes (transcribing (VObj [])) []
                           [26%N; 69%N]) eq_refl) (VObj []));
      reflexivity.
  - apply (proj1 (proj2 (transcribe_outcomes unreachable [] [26%N; 69%N]) eq_refl)
             (External (str "ECONNRESET"))).
    reflexivity.
  - apply (proj1 (transcribe_outcomes speechless [] [26%N; 69%N])
             (External (str "unused"))).
    reflexivity.
Defined.

(** A handler run down to the call of the provider. *)
Ltac run_to_call Ht Hc Hne Hj :=
  unfold text_of, commands_of in Ht, Hc; rewrite Ht, Hc;
  match goal with
  | |- context [bad_request (VStr ?t) (VArr ?e [])] =>
      replace (bad_request (VStr t) (VArr e [])) with false
        by (destruct e; [contradiction | reflexivity])
  end;
  cbn [method_hidden lookup elements string_of]; rewrite Hj;
  unfold try_catch, bind, lift, call; fold only1; fold only2.

(** X12: when the provider fails, both revisions answer 500 with
    [intent_failed], having asked once and logged the failure. *)
Theorem intent_provider_failure (h : host) (pv : provider) (req_body : value)
    (done : list effect) (elems : list value) (e : error) :
  (forall req,
      asked h only1 req_body elems req ->
      chat_completions_create pv done req = Rejected e ->
      Variant1.intent h pv req_body done
      = (Normal intent_failed_response, done ++ [Chatted req; ConsoleError e]))
  /\ (forall req,
      asked h only2 req_body elems req ->
      chat_completions_create pv done req = Rejected e ->
      Variant2.intent h pv req_body done
      = (Normal intent_failed_response, done ++ [Chatted req; ConsoleError e])).
Proof.
  split; intros req (text & listing & Ht & Hc & Hne & Hj & ->) Hrej.
  - unfold Variant1.intent. run_to_call Ht Hc Hne Hj. rewrite Hrej.
    cbn. now rewrite <- app_assoc.
  - unfold Variant2.intent. run_to_call Ht Hc Hne Hj. rewrite Hrej.
    cbn. now rewrite <- app_assoc.
Qed.

Lemma lights_asked (only : jsstring) :
  asked example_host only lights_request
    [VStr (str "lights_on"); VStr (str "lights_off")]
    (chat_for (userMsg only (str "turn on the light") (str "lights_on, lights_off"))).
Proof.
  exists (str "turn on the light"), (str "lights_on, lights_off").
  repeat split. discriminate.
Qed.

Lemma intent_provider_failure_witness :
  Variant1.intent example_host unreachable lights_request []
  = (Normal intent_failed_response,
     [] ++ [Chatted (chat_for (userMsg only1 (str "turn on the light")
                                       (str "lights_on, lights_off")));
            ConsoleError (External (str "ECONNRESET"))])
  /\ Variant2.intent example_host unreachable lights_request []
     = (Normal intent_failed_response,
        [] ++ [Chatted (chat_for (userMsg only2 (str "turn on the light")
                                          (str "lights_on, lights_off")));
               ConsoleError (External (str "ECONNRESET"))]).
Proof.
  split.
  - apply (proj1 (intent_provider_failure example_host unreachable lights_request []
                    [VStr (str "lights_on"); VStr (str "lights_off")]
                    (External (str "ECONNRESET")))).
    + apply lights_asked.
    + reflexivity.
  - apply (proj2 (intent_provider_failure example_host unreachable lights_request []
                    [VStr (str "lights_on"); VStr (str "lights_off")]
                    (External (str "ECONNRESET")))).
    + apply lights_asked.
    + reflexivity.
Defined.

(** X13: output that parses but is no object.  In the second revision
    content that parses to [null] ends in 500 (the destructuring raises),
    unlike content that does not parse at all; in the first revision
    content that parses to [null], a number, a string or a boolean ends in
    500 (a property cannot be set on it). *)
Theorem intent_output_not_an_object (h : host) (pv : provider) (req_body : value)
    (done : list effect) (elems : list value) (chat : value) :
  (forall out,
      answered h pv only2 req_body done elems chat ->
      rbind (Variant2.content_or_default chat) (JSON_parse h) = Normal out ->
      nullish out = true ->
      fst (Variant2.intent h pv req_body done) = Normal intent_failed_response)
  /\ (forall content json,
      answered h pv only1 req_body done elems chat ->
      strict_content chat = Normal content ->
      JSON_parse h content = Normal json ->
      primitive json = true ->
      fst (Variant1.intent h pv req_body done) = Normal intent_failed_response).
Proof.
  split.
  - intros out (text & listing & Ht & Hc & Hne & Hj & Hchat) Hout Hnull.
    destruct (join_map_String h _ _ _ Hj) as [w Hw].
    unfold Variant2.intent. run_to_chat Ht Hc Hne Hj Hchat.
    rewrite Hout, Hw, Hnull. reflexivity.
  - intros content json (text & listing & Ht & Hc & Hne & Hj & Hchat)
      Hcontent Hparse Hprim.
    unfold Variant1.intent. run_to_chat Ht Hc Hne Hj Hchat.
    read_strictly Hcontent. rewrite Hparse.
    destruct json; try discriminate Hprim; reflexivity.
Qed.

Lemma intent_output_not_an_object_witness :
  fst (Variant2.intent scalar_host (answering (str "null")) lights_request [])
  = Normal intent_failed_response
  /\ fst (Variant1.intent scalar_host (answering (str "5")) lights_request [])
     = Normal intent_failed_response.
Proof.
  assert (Hans : forall only content,
             answered scalar_host (answering content) only lights_request []
               [VStr (str "lights_on"); VStr (str "lights_off")]
               (chat_with content)).
  { intros only content.
    exists (str "turn on the light"), (str "lights_on, lights_off").
    repeat split. discriminate. }
  split.
  - apply (proj1 (intent_output_not_an_object scalar_host (answering (str "null"))
                    lights_request []
                    [VStr (str "lights_on"); VStr (str "lights_off")]
                    (chat_with (str "null"))) VNull);
      [apply Hans | reflexivity | reflexivity].
  - apply (proj2 (intent_output_not_an_object scalar_host (answering (str "5"))
                    lights_request []
                    [VStr (str "lights_on"); VStr (str "lights_off")]
                    (chat_with (str "5"))) (VStr (str "5")) (VNum 5%float));
      [apply Hans | reflexivity | reflexivity | reflexivity].
Defined.

(** X14: an answer of the provider without content.  The second revision
    reads the content through optional steps and falls back on the text
    of an empty object: the response is 200 with the defaults.  The first
    revision reads it directly: when a step of
    [chat.choices[0].message.content] raises, the response is 500. *)
Theorem intent_missing_content (h : host) (pv : provider) (req_body : value)
    (done : list effect) (elems : list value) (chat : value) :
  JSON_parse_text h (str "{}") = Some (VObj []) ->
  (answered h pv only2 req_body done elems chat ->
   nullish chat = false ->
   nullish (get_optional
              (get_optional (get_optional (get chat (str "choices")) (str "0"))
                            (str "message"))
              (str "content")) = true ->
   fst (Variant2.intent h pv req_body done)
   = Normal (classified VNull 0.5%float))
  /\ (forall e,
      answered h pv only1 req_body done elems chat ->
      strict_content chat = Throw e ->
      fst (Variant1.intent h pv req_body done) = Normal intent_failed_response).
Proof.
  intros Hempty. split.
  - intros Hans Hchat Hcontent.
    destruct (intent2_output h pv req_body done elems chat (VObj []) 0.5%float Hans)
      as (w & Hw & Hrun); try reflexivity.
    + unfold Variant2.content_or_default, get_strict.
      rewrite Hchat. cbn [rbind]. rewrite Hcontent.
      unfold JSON_parse. cbn [ToString rbind]. now rewrite Hempty.
    + rewrite Hrun. reflexivity.
  - intros e (text & listing & Ht & Hc & Hne & Hj & Hchat) Hcontent.
    unfold Variant1.intent. run_to_chat Ht Hc Hne Hj Hchat.
    unfold strict_content in Hcontent.
    repeat match type of Hcontent with
    | rbind (get_strict ?v ?k) _ = _ =>
        destruct (get_strict v k); cbn [rbind] in Hcontent;
        try discriminate Hcontent
    end; try reflexivity.
    rewrite Hcontent. reflexivity.
Qed.

Lemma intent_missing_content_witness :
  fst (Variant2.intent example_host speechless lights_request [])
  = Normal (classified VNull 0.5%float)
  /\ fst (Variant1.intent example_host speechless lights_request [])
     = Normal intent_failed_response.
Proof.
  assert (Hans : forall only,
             answered example_host speechless only lights_request []
               [VStr (str "lights_on"); VStr (str "lights_off")]
               (VObj [(str "choices", VArr [] [])])).
  { intros only. exists (str "turn on the light"), (str "lights_on, lights_off").
    repeat split. discriminate. }
  split.
  - apply (proj1 (intent_missing_content example_host speechless lights_request []
                    [VStr (str "lights_on"); VStr (str "lights_off")]
                    (VObj [(str "choices", VArr [] [])]) eq_refl));
      [apply Hans | reflexivity | reflexivity].
  - apply (proj2 (intent_missing_content example_host speechless lights_request []
                    [VStr (str "lights_on"); VStr (str "lights_off")]
                    (VObj [(str "choices", VArr [] [])]) eq_refl) TypeError);
      [apply Hans | reflexivity].
Defined.

End RouteFacts.
